(** * smriti-bot: the [/chat] handler of [app.py]

    A shallow embedding of the request/response shaping done by [chat]
    (app.py, lines 126-192) and the properties the specification states
    about it.

    Modelling choices.
    - A Python [str] is a [string]; a character is read as a code point in
      0..255 (Latin-1).  [str.strip] and [str.lower] are written out for
      that range.
    - A Python [int] is a [Z]; the two float literals of the request are
      kept as the decimal fractions they are written as.
    - The boto3 result is a nest of dicts whose keys may be missing; each
      dict is a record whose fields are options.  A present field has the
      type the service model declares for it.
    - An exception is a value of [PyExn]; code that can raise returns a
      sum [PyExn + A].
    - The external service is a function of the calls made so far and of
      the request; the handler threads the call log. *)

From Stdlib Require Import List String Ascii ZArith QArith Lia Bool.
Import ListNotations.

Local Open Scope string_scope.

(** ** Python strings *)

Module PyStr.

(** [str.isspace] on one code point below 256: TAB..CR, FS..US, space,
    NEL and the no-break space. *)
Definition isspace (c : ascii) : bool :=
  let n := N_of_ascii c in
  (((9 <=? n) && (n <=? 13)) || ((28 <=? n) && (n <=? 32))
   || (n =? 133) || (n =? 160))%N.

(** [str.lower] on one code point below 256: A..Z and the Latin-1 capitals
    (all of 0xC0..0xDE but the multiplication sign) move up by 32. *)
Definition lower_char (c : ascii) : ascii :=
  let n := N_of_ascii c in
  if (((65 <=? n) && (n <=? 90))
      || ((192 <=? n) && (n <=? 222) && negb (n =? 215)))%N
  then ascii_of_N (n + 32) else c.

Fixpoint lower (s : string) : string :=
  match s with
  | EmptyString => EmptyString
  | String c s' => String (lower_char c) (lower s')
  end.

Fixpoint lstrip (s : string) : string :=
  match s with
  | EmptyString => EmptyString
  | String c s' => if isspace c then lstrip s' else s
  end.

Fixpoint rstrip (s : string) : string :=
  match s with
  | EmptyString => EmptyString
  | String c s' =>
      match rstrip s' with
      | EmptyString => if isspace c then EmptyString else String c EmptyString
      | r => String c r
      end
  end.

(** [s.strip()] *)
Definition strip (s : string) : string := rstrip (lstrip s).

(** [not s] for a string: true exactly on the empty string. *)
Definition is_empty (s : string) : bool :=
  match s with EmptyString => true | _ => false end.

(** [s.startswith(k)] *)
Fixpoint startswith (s k : string) : bool :=
  match k, s with
  | EmptyString, _ => true
  | String _ _, EmptyString => false
  | String a k', String b s' => Ascii.eqb a b && startswith s' k'
  end.

(** [k in s] *)
Fixpoint contains (s k : string) : bool :=
  startswith s k ||
  match s with
  | EmptyString => false
  | String _ s' => contains s' k
  end.

(** [s[:n]] for [n >= 0] *)
Fixpoint slice_to (n : nat) (s : string) : string :=
  match n, s with
  | O, _ => EmptyString
  | S _, EmptyString => EmptyString
  | S n', String c s' => String c (slice_to n' s')
  end.

(** [len(s)] as a Python int *)
Definition len (s : string) : Z := Z.of_nat (String.length s).

(** The characters [repr] treats apart: the two quotes and the backslash. *)
Definition single_quote : ascii := ascii_of_N 39.
Definition double_quote : ascii := ascii_of_N 34.
Definition backslash : ascii := ascii_of_N 92.

(** [c in s] for one character *)
Fixpoint has_char (c : ascii) (s : string) : bool :=
  match s with
  | EmptyString => false
  | String a s' => Ascii.eqb a c || has_char c s'
  end.

(** [str.isprintable] on one code point below 256: the ASCII range from
    the space to the tilde, and the Latin-1 range from 0xA1 on without the
    soft hyphen. *)
Definition isprintable (c : ascii) : bool :=
  let n := N_of_ascii c in
  (((32 <=? n) && (n <=? 126)) || ((161 <=? n) && negb (n =? 173)))%N.

Definition hex_digit (n : N) : ascii :=
  match n with
  | 0 => "0" | 1 => "1" | 2 => "2" | 3 => "3" | 4 => "4" | 5 => "5"
  | 6 => "6" | 7 => "7" | 8 => "8" | 9 => "9" | 10 => "a" | 11 => "b"
  | 12 => "c" | 13 => "d" | 14 => "e" | _ => "f"
  end%N%char.

(** The escape of [repr] for a character it does not print: a backslash,
    an x and two hexadecimal digits. *)
Definition hex_escape (c : ascii) : string :=
  let n := N_of_ascii c in
  String backslash
    (String "x"
       (String (hex_digit (n / 16)) (String (hex_digit (n mod 16)) EmptyString))).

(** What [repr] writes for one character between the quotes [quote]: the
    quote in use and the backslash take a backslash, TAB, LF and CR their
    letter, the other characters that do not print their code, and the
    rest stands as it is. *)
Definition repr_char (quote c : ascii) : string :=
  let n := N_of_ascii c in
  if Ascii.eqb c quote || Ascii.eqb c backslash
  then String backslash (String c EmptyString)
  else if (n =? 9)%N then String backslash (String "t" EmptyString)
  else if (n =? 10)%N then String backslash (String "n" EmptyString)
  else if (n =? 13)%N then String backslash (String "r" EmptyString)
  else if isprintable c then String c EmptyString
  else hex_escape c.

Fixpoint repr_body (quote : ascii) (s : string) : string :=
  match s with
  | EmptyString => EmptyString
  | String c s' => repr_char quote c ++ repr_body quote s'
  end.

(** [repr(s)]: between single quotes, or between double quotes when [s]
    holds a single quote and no double quote. *)
Definition repr (s : string) : string :=
  let quote :=
    if has_char single_quote s && negb (has_char double_quote s)
    then double_quote else single_quote in
  String quote (repr_body quote s ++ String quote EmptyString).

End PyStr.

(** ** Exceptions and the code that can raise *)

Inductive PyExn : Type :=
| KeyError (key : string)
| AttributeError (msg : string)
| ServiceError (description : string).

(** [str(e)]: a [KeyError] prints the [repr] of its key, the others their
    message. *)
Definition py_str (e : PyExn) : string :=
  match e with
  | KeyError key => PyStr.repr key
  | AttributeError msg => msg
  | ServiceError description => description
  end.

Definition Raising (A : Type) : Type := (PyExn + A)%type.

Definition raise {A : Type} (e : PyExn) : Raising A := inl e.
Definition done {A : Type} (a : A) : Raising A := inr a.

Definition bind {A B : Type} (m : Raising A) (k : A -> Raising B) : Raising B :=
  match m with
  | inl e => inl e
  | inr a => k a
  end.

Notation "x <- m ;; k" := (bind m (fun x => k))
  (at level 61, m at next level, right associativity).

(** [d[key]] on a dict whose entry for [key] is [field] *)
Definition subscript {A : Type} (key : string) (field : option A) : Raising A :=
  match field with
  | Some v => done v
  | None => raise (KeyError key)
  end.

(** [d.get(key, default)] *)
Definition get {A : Type} (field : option A) (default : A) : A :=
  match field with
  | Some v => v
  | None => default
  end.

(** ** The request sent to [client.retrieve_and_generate] *)

Module Req.

Record TextInferenceConfig : Type := {
  maxTokens : Z;
  temperature : Q;
  topP : Q;
  stopSequences : list string
}.

Record InferenceConfig : Type := {
  textInferenceConfig : TextInferenceConfig
}.

Record PromptTemplate : Type := {
  textPromptTemplate : string
}.

Record GenerationConfiguration : Type := {
  promptTemplate : PromptTemplate;
  inferenceConfig : InferenceConfig
}.

Record VectorSearchConfiguration : Type := {
  numberOfResults : Z
}.

Record RetrievalConfiguration : Type := {
  vectorSearchConfiguration : VectorSearchConfiguration
}.

Record KnowledgeBaseConfiguration : Type := {
  knowledgeBaseId : string;
  modelArn : string;
  generationConfiguration : GenerationConfiguration;
  retrievalConfiguration : RetrievalConfiguration
}.

Record RetrieveAndGenerateConfiguration : Type := {
  type : string;
  knowledgeBaseConfiguration : KnowledgeBaseConfiguration
}.

Record Input : Type := {
  text : string
}.

(** The keyword arguments of the call. *)
Record Args : Type := {
  input : Input;
  retrieveAndGenerateConfiguration : RetrieveAndGenerateConfiguration
}.

End Req.

(** ** The result of [client.retrieve_and_generate] *)

Module Resp.

Record S3Location : Type := {
  uri : option string
}.

Record Location : Type := {
  s3Location : option S3Location
}.

Record Content : Type := {
  text : option string
}.

Record RetrievedReference : Type := {
  content : option Content;
  location : option Location
}.

Record Citation : Type := {
  retrievedReferences : option (list RetrievedReference)
}.

Record Output : Type := {
  output_text : option string
}.

Record Response : Type := {
  output : option Output;
  citations : option (list Citation)
}.

(** The empty dict [{}] used as a default of [get]. *)
Definition no_location : Location := {| s3Location := None |}.
Definition no_s3Location : S3Location := {| uri := None |}.

End Resp.

(** ** What the handler answers *)

(** The dict appended to [sources]. *)
Record SourceEntry : Type := {
  id : Z;
  snippet : string;
  file : string
}.

Inductive JsonValue : Type :=
| JString (s : string)
| JSources (l : list SourceEntry).

(** The dict given to [jsonify], in the order it is written. *)
Definition Body : Type := list (string * JsonValue).

Fixpoint field (key : string) (body : Body) : option JsonValue :=
  match body with
  | [] => None
  | (k, v) :: rest => if String.eqb k key then Some v else field key rest
  end.

Inductive HttpResult : Type :=
| Respond (status : Z) (body : Body)
| Unhandled (e : PyExn).

(** The JSON value under ["message"] in the request body: a string, or a
    value of another Python type, of which only the type name matters. *)
Inductive MessageValue : Type :=
| MStr (s : string)
| MOther (type_name : string).

Record ChatRequest : Type := {
  message : option MessageValue
}.

(** ** Process configuration *)

(** [KB_ID] and [MODEL_ARN] come from the environment; [SYSTEM_PROMPT] is the
    module's constant template (lines 28-116), carried as it is. *)
Record Config : Type := {
  KB_ID : string;
  MODEL_ARN : string;
  SYSTEM_PROMPT : string
}.

(** ** The external service *)

Inductive Outcome : Type :=
| Returns (response : Resp.Response)
| Raises (e : PyExn).

Definition CallLog : Type := list Req.Args.

(** The service answers a request knowing the requests it has received. *)
Definition Service : Type := CallLog -> Req.Args -> Outcome.

Definition retrieve_and_generate (client : Service) (args : Req.Args)
  (log : CallLog) : Raising Resp.Response * CallLog :=
  (match client log args with
   | Returns response => done response
   | Raises e => raise e
   end, (log ++ [args])%list).

(** ** The handler *)

Section Handler.

Import PyStr.

Variable cfg : Config.

(** The arguments of [client.retrieve_and_generate] (lines 133-160). *)
Definition build_args (user_message : string) : Req.Args :=
  {| Req.input := {| Req.text := user_message |};
     Req.retrieveAndGenerateConfiguration :=
       {| Req.type := "KNOWLEDGE_BASE";
          Req.knowledgeBaseConfiguration :=
            {| Req.knowledgeBaseId := KB_ID cfg;
               Req.modelArn := MODEL_ARN cfg;
               Req.generationConfiguration :=
                 {| Req.promptTemplate :=
                      {| Req.textPromptTemplate := SYSTEM_PROMPT cfg |};
                    Req.inferenceConfig :=
                      {| Req.textInferenceConfig :=
                           {| Req.maxTokens := 6000;
                              Req.temperature := 0 # 1;
                              Req.topP := 99 # 100;
                              Req.stopSequences := [] |} |} |};
               Req.retrievalConfiguration :=
                 {| Req.vectorSearchConfiguration :=
                      {| Req.numberOfResults := 10 |} |} |} |} |}.

Definition greeting_keywords : list string :=
  ["hi"; "hello"; "hii"; "hey"; "good morning"; "good afternoon";
   "good evening"; "what is your name"; "who are you"; "what can you do";
   "your name"; "how are you"].

(** [any(keyword in user_lower for keyword in greeting_keywords)] *)
Definition is_greeting (user_lower : string) : bool :=
  existsb (fun keyword => contains user_lower keyword) greeting_keywords.

(** Line 178: [ref['content'].get('text', '')[:500] + ("..." if
    len(ref['content'].get('text', '')) > 500 else "")]; the subscript is
    evaluated once for the slice and once for the length. *)
Definition snippet_of (ref : Resp.RetrievedReference) : Raising string :=
  c1 <- subscript "content" (Resp.content ref) ;;
  let head := slice_to 500 (get (Resp.text c1) "") in
  c2 <- subscript "content" (Resp.content ref) ;;
  done (head ++ (if (len (get (Resp.text c2) "") >? 500)%Z then "..." else "")).

(** Line 179: [ref.get('location', {}).get('s3Location', {}).get('uri', 'N/A')] *)
Definition uri_of (ref : Resp.RetrievedReference) : string :=
  get (Resp.uri
         (get (Resp.s3Location (get (Resp.location ref) Resp.no_location))
              Resp.no_s3Location))
      "N/A".

(** The body of the inner loop (lines 178-184): the entry appended for
    [ref] under the citation numbered [i]. *)
Definition source_entry (i : Z) (ref : Resp.RetrievedReference)
  : Raising SourceEntry :=
  content <- snippet_of ref ;;
  let uri := uri_of ref in
  done {| id := i; snippet := content; file := uri |}.

(** The inner loop (line 177), appending to [sources]. *)
Fixpoint refs_loop (i : Z) (refs : list Resp.RetrievedReference)
  (sources : list SourceEntry) : Raising (list SourceEntry) :=
  match refs with
  | [] => done sources
  | ref :: rest =>
      entry <- source_entry i ref ;;
      refs_loop i rest (sources ++ [entry])%list
  end.

(** The outer loop (line 176): [enumerate(..., 1)] numbers the citations
    from the start value on. *)
Fixpoint citations_loop (i : Z) (cits : list Resp.Citation)
  (sources : list SourceEntry) : Raising (list SourceEntry) :=
  match cits with
  | [] => done sources
  | citation :: rest =>
      sources' <- refs_loop i (get (Resp.retrievedReferences citation) []) sources ;;
      citations_loop (i + 1) rest sources'
  end.

(** Lines 162-189: what the [try] block does with the service's result. *)
Definition shape (user_message : string) (response : Resp.Response)
  : Raising Body :=
  out <- subscript "output" (Resp.output response) ;;
  bot_reply <- subscript "text" (Resp.output_text out) ;;
  let user_lower := strip (lower user_message) in
  sources <-
    (if is_greeting user_lower then done []
     else citations_loop 1 (get (Resp.citations response) []) []) ;;
  done [("reply", JString bot_reply); ("sources", JSources sources)].

(** [chat] (lines 127-192).  The first two lines are outside the [try]:
    an exception there leaves the handler. *)
Definition chat (client : Service) (request_json : ChatRequest)
  (log : CallLog) : HttpResult * CallLog :=
  match get (message request_json) (MStr "") with
  | MOther type_name =>
      (Unhandled (AttributeError
         ("'" ++ type_name ++ "' object has no attribute 'strip'")), log)
  | MStr raw =>
      let user_message := strip raw in
      if is_empty user_message then
        (Respond 400 [("error", JString "Empty message")], log)
      else
        let (result, log') :=
          retrieve_and_generate client (build_args user_message) log in
        (match response <- result ;; shape user_message response with
         | inr body => Respond 200 body
         | inl e => Respond 500 [("error", JString (py_str e))]
         end, log')
  end.

End Handler.

(** ** Vocabulary of the statements *)

Definition refs_of (citation : Resp.Citation) : list Resp.RetrievedReference :=
  get (Resp.retrievedReferences citation) [].

Definition cits_of (response : Resp.Response) : list Resp.Citation :=
  get (Resp.citations response) [].

(** The number of references over all the citations. *)
Fixpoint total_references (cits : list Resp.Citation) : nat :=
  match cits with
  | [] => 0
  | c :: rest => List.length (refs_of c) + total_references rest
  end.

(** The number of references held by the first [k] citations. *)
Definition refs_before (k : nat) (cits : list Resp.Citation) : nat :=
  total_references (firstn k cits).

(** The ordinal of each citation, numbered from [i], once per reference it
    holds. *)
Fixpoint citation_ordinals (i : Z) (cits : list Resp.Citation) : list Z :=
  match cits with
  | [] => []
  | c :: rest =>
      (repeat i (List.length (refs_of c)) ++ citation_ordinals (i + 1) rest)%list
  end.

(** A reference that line 178 can read: its ['content'] key is there. *)
Definition has_content (ref : Resp.RetrievedReference) : Prop :=
  Resp.content ref <> None.

(** The message contains one of the greeting strings. *)
Definition matches_greeting (s : string) : Prop :=
  exists keyword, In keyword greeting_keywords /\
    exists pre post, s = pre ++ keyword ++ post.

(** The request carries the string [raw] under ["message"]. *)
Definition carries (request_json : ChatRequest) (raw : string) : Prop :=
  message request_json = Some (MStr raw).

(** What [lstrip] returns is empty or starts with a character that is not
    white space. *)
Definition clean_head (s : string) : Prop :=
  match s with
  | EmptyString => True
  | String c _ => PyStr.isspace c = false
  end.

(** ** Sample data

    The second end-to-end example of the specification: one citation
    holding two references, of 200 and of 600 characters, the first with
    a locator and the second without. *)

Definition filler (c : ascii) (n : nat) : string :=
  string_of_list_ascii (repeat c n).

Definition sample_cfg : Config :=
  {| KB_ID := "KB0001"; MODEL_ARN := "arn:aws:bedrock:model";
     SYSTEM_PROMPT := "$search_results$ $output_format_instructions$" |}.

Definition sample_ref_short : Resp.RetrievedReference :=
  {| Resp.content := Some {| Resp.text := Some (filler "x" 200) |};
     Resp.location :=
       Some {| Resp.s3Location := Some {| Resp.uri := Some "s3://a" |} |} |}.

Definition sample_ref_long : Resp.RetrievedReference :=
  {| Resp.content := Some {| Resp.text := Some (filler "y" 600) |};
     Resp.location := None |}.

Definition sample_ref_textless : Resp.RetrievedReference :=
  {| Resp.content := Some {| Resp.text := None |};
     Resp.location := Some {| Resp.s3Location := None |} |}.

Definition sample_response : Resp.Response :=
  {| Resp.output := Some {| Resp.output_text := Some "<div><p>KYC</p></div>" |};
     Resp.citations :=
       Some [ {| Resp.retrievedReferences :=
                   Some [sample_ref_short; sample_ref_long] |} ] |}.

(** A result whose citations each hold one reference. *)
Definition sample_response_single : Resp.Response :=
  {| Resp.output := Some {| Resp.output_text := Some "<div><p>KYC</p></div>" |};
     Resp.citations :=
       Some [ {| Resp.retrievedReferences := Some [sample_ref_short] |};
              {| Resp.retrievedReferences := Some [sample_ref_textless] |} ] |}.

(** A result with no ['output'] key. *)
Definition sample_response_broken : Resp.Response :=
  {| Resp.output := None; Resp.citations := None |}.

Definition sample_client : Service := fun _ _ => Returns sample_response.
Definition sample_client_single : Service :=
  fun _ _ => Returns sample_response_single.
Definition sample_client_broken : Service :=
  fun _ _ => Returns sample_response_broken.
Definition sample_client_down : Service :=
  fun _ _ => Raises (ServiceError "An error occurred (ThrottlingException)").

Definition sample_question : ChatRequest :=
  {| message := Some (MStr "  What are POSP KYC rules? ") |}.
Definition sample_hello : ChatRequest :=
  {| message := Some (MStr "Hello") |}.
Definition sample_this : ChatRequest :=
  {| message := Some (MStr "Explain THIS rule") |}.
Definition sample_blank : ChatRequest :=
  {| message := Some (MStr (String (ascii_of_N 9) "  ")) |}.
Definition sample_absent : ChatRequest :=
  {| message := None |}.

(** A character that [repr] writes as it is between single quotes: one
    that prints and is neither the single quote nor the backslash. *)
Definition plain_char (c : ascii) : bool :=
  PyStr.isprintable c && negb (Ascii.eqb c PyStr.single_quote)
  && negb (Ascii.eqb c PyStr.backslash).

(** A key made of plain characters, as the keys of the result are. *)
Fixpoint plain (s : string) : bool :=
  match s with
  | EmptyString => true
  | String c s' => plain_char c && plain s'
  end.

(** Every character of the string is white space. *)
Fixpoint all_space (s : string) : bool :=
  match s with
  | EmptyString => true
  | String c s' => PyStr.isspace c && all_space s'
  end.

(** ** Process start (lines 9-19) *)

Module Startup.

(** [os.environ]: the value of a variable, when it is set. *)
Definition Environ : Type := string -> option string.

Definition required_vars : list string :=
  ["AWS_ACCESS_KEY_ID"; "AWS_SECRET_ACCESS_KEY"; "KB_ID"; "MODEL_ARN"].

(** The truth value of [os.environ.get(var)]: [None] and the empty string
    are false. *)
Definition truthy (value : option string) : bool :=
  match value with
  | None => false
  | Some s => negb (PyStr.is_empty s)
  end.

(** [[var for var in required_vars if not os.environ.get(var)]] *)
Definition missing (environ : Environ) : list string :=
  filter (fun var => negb (truthy (environ var))) required_vars.

(** [sep.join(l)] *)
Fixpoint join (sep : string) (l : list string) : string :=
  match l with
  | [] => EmptyString
  | x :: rest =>
      match rest with
      | [] => x
      | _ :: _ => x ++ sep ++ join sep rest
      end
  end.

(** The module's globals once lines 9-13 have run. *)
Record Globals : Type := {
  AWS_ACCESS_KEY_ID : option string;
  AWS_SECRET_ACCESS_KEY : option string;
  AWS_REGION : string;
  KB_ID : option string;
  MODEL_ARN : option string
}.

Inductive Result : Type :=
| Started (globals : Globals)
| EnvironmentError (msg : string).

(** Lines 9-19: read the five variables, then fail fast.  [Started] says
    that the check of lines 16-19 has passed; the boto3 session and client
    of lines 22-27 are not part of this. *)
Definition load (environ : Environ) : Result :=
  let globals :=
    {| AWS_ACCESS_KEY_ID := environ "AWS_ACCESS_KEY_ID";
       AWS_SECRET_ACCESS_KEY := environ "AWS_SECRET_ACCESS_KEY";
       AWS_REGION := get (environ "AWS_REGION") "ap-south-1";
       KB_ID := environ "KB_ID";
       MODEL_ARN := environ "MODEL_ARN" |} in
  match missing environ with
  | [] => Started globals
  | _ :: _ =>
      EnvironmentError ("Missing env vars: " ++ join ", " (missing environ))
  end.

(** [os.environ] after [os.environ[var] = value] ([Some]) or
    [del os.environ[var]] ([None]). *)
Definition setenv (environ : Environ) (var : string) (value : option string)
  : Environ :=
  fun v => if String.eqb v var then value else environ v.

End Startup.

(** What [chat] reads of the globals: [KB_ID] and [MODEL_ARN], which the
    request takes as strings, and the constant [SYSTEM_PROMPT]. *)
Definition config_of (globals : Startup.Globals) (system_prompt : string)
  : option Config :=
  match Startup.KB_ID globals, Startup.MODEL_ARN globals with
  | Some kb_id, Some model_arn =>
      Some {| KB_ID := kb_id; MODEL_ARN := model_arn;
              SYSTEM_PROMPT := system_prompt |}
  | _, _ => None
  end.

(** ** The page (lines 117-124) *)

Module Page.

(** The headers of a response, as werkzeug keeps them: a list of names and
    values, the names compared without regard to case. *)
Definition Headers : Type := list (string * string).

Definition same_name (a b : string) : bool :=
  String.eqb (PyStr.lower a) (PyStr.lower b).

(** [headers.get(key)]: the value of the first entry of that name. *)
Fixpoint lookup (key : string) (headers : Headers) : option string :=
  match headers with
  | [] => None
  | (k, v) :: rest => if same_name k key then Some v else lookup key rest
  end.

(** [headers[key] = value]: the first entry of that name is replaced, the
    later ones are dropped; with no such entry the new one goes last. *)
Fixpoint assign (key value : string) (headers : Headers) : Headers :=
  match headers with
  | [] => [(key, value)]
  | (k, v) :: rest =>
      if same_name k key
      then (key, value) :: filter (fun t => negb (same_name (fst t) key)) rest
      else (k, v) :: assign key value rest
  end.

(** How many entries bear the name. *)
Definition occurrences (key : string) (headers : Headers) : nat :=
  List.length (filter (fun t => same_name (fst t) key) headers).

Record Response : Type := {
  data : string;
  status : Z;
  headers : Headers
}.

(** [index], given what [make_response(render_template("index.html"))]
    returns. *)
Definition index (rendered : Response) : Response :=
  let response := rendered in
  let response :=
    {| data := data response; status := status response;
       headers := assign "Cache-Control" "no-cache, no-store, must-revalidate"
                    (headers response) |} in
  let response :=
    {| data := data response; status := status response;
       headers := assign "Pragma" "no-cache" (headers response) |} in
  let response :=
    {| data := data response; status := status response;
       headers := assign "Expires" "0" (headers response) |} in
  response.

(** The three names [index] writes. *)
Definition cache_headers : list (string * string) :=
  [("Cache-Control", "no-cache, no-store, must-revalidate");
   ("Pragma", "no-cache"); ("Expires", "0")].

End Page.

(** ** More vocabulary *)

(** The greeting strings without the two that contain another one: hii
    contains hi, and what is your name contains your name. *)
Definition greeting_keywords_reduced : list string :=
  ["hi"; "hello"; "hey"; "good morning"; "good afternoon"; "good evening";
   "who are you"; "what can you do"; "your name"; "how are you"].

(** Some reference of some citation has no ['content'] key. *)
Definition has_unreadable (cits : list Resp.Citation) : Prop :=
  Exists (fun c => Exists (fun ref => Resp.content ref = None) (refs_of c)) cits.

(** An environment with the four required variables set. *)
Definition sample_environ : Startup.Environ :=
  fun var =>
    if String.eqb var "AWS_ACCESS_KEY_ID" then Some "AKIAEXAMPLE"
    else if String.eqb var "AWS_SECRET_ACCESS_KEY" then Some "secret"
    else if String.eqb var "KB_ID" then Some "KB0001"
    else if String.eqb var "MODEL_ARN" then Some "arn:aws:bedrock:model"
    else None.

(** A rendered page that already carries a caching header, twice and in
    another case. *)
Definition sample_page : Page.Response :=
  {| Page.data := "<html></html>"; Page.status := 200;
     Page.headers :=
       [("Content-Type", "text/html; charset=utf-8");
        ("cache-control", "public"); ("Content-Length", "13");
        ("CACHE-CONTROL", "max-age=60")] |}.

(** A result one of whose references has no content. *)
Definition sample_response_unreadable : Resp.Response :=
  {| Resp.output := Some {| Resp.output_text := Some "<div><p>KYC</p></div>" |};
     Resp.citations :=
       Some [ {| Resp.retrievedReferences :=
                   Some [sample_ref_short;
                         {| Resp.content := None; Resp.location := None |}] |} ] |}.

Definition sample_client_unreadable : Service :=
  fun _ _ => Returns sample_response_unreadable.

(** A result whose first citation holds no reference. *)
Definition sample_response_gap : Resp.Response :=
  {| Resp.output := Some {| Resp.output_text := Some "<div><p>KYC</p></div>" |};
     Resp.citations :=
       Some [ {| Resp.retrievedReferences := None |};
              {| Resp.retrievedReferences := Some [sample_ref_short] |} ] |}.

Definition sample_client_gap : Service :=
  fun _ _ => Returns sample_response_gap.

(** ** Facts about the string operations *)

Section StringFacts.

Import PyStr.

Lemma isspace_lower_char (c : ascii) : isspace (lower_char c) = isspace c.
Proof.
  destruct c as [[] [] [] [] [] [] [] []]; reflexivity.
Qed.

Lemma lower_lstrip (s : string) : lower (lstrip s) = lstrip (lower s).
Proof.
  induction s as [| c s IH]; simpl; [reflexivity |].
  rewrite isspace_lower_char.
  destruct (isspace c); [exact IH | reflexivity].
Qed.

Lemma lower_rstrip (s : string) : lower (rstrip s) = rstrip (lower s).
Proof.
  induction s as [| c s IH]; simpl; [reflexivity |].
  rewrite <- IH, isspace_lower_char.
  destruct (rstrip s) as [| d r]; simpl; [| reflexivity].
  destruct (isspace c); reflexivity.
Qed.

Lemma lower_strip (s : string) : lower (strip s) = strip (lower s).
Proof.
  unfold strip. now rewrite lower_rstrip, lower_lstrip.
Qed.

Lemma rstrip_idem (s : string) : rstrip (rstrip s) = rstrip s.
Proof.
  induction s as [| c s IH]; simpl; [reflexivity |].
  destruct (rstrip s) as [| d r] eqn:E.
  - destruct (isspace c) eqn:Ec; simpl; [reflexivity | now rewrite Ec].
  - simpl in IH |- *. now rewrite IH.
Qed.

Lemma lstrip_clean_head (s : string) : clean_head (lstrip s).
Proof.
  induction s as [| c s IH]; simpl; [exact I |].
  destruct (isspace c) eqn:Ec; [exact IH | exact Ec].
Qed.

Lemma lstrip_of_clean_head (s : string) : clean_head s -> lstrip s = s.
Proof.
  destruct s as [| c s]; simpl; [reflexivity |].
  now intros ->.
Qed.

Lemma rstrip_clean_head (s : string) : clean_head s -> clean_head (rstrip s).
Proof.
  destruct s as [| c s]; simpl; [exact (fun H => H) |].
  intros Hc. destruct (rstrip s); [rewrite Hc |]; exact Hc.
Qed.

Lemma lstrip_strip (s : string) : lstrip (strip s) = strip s.
Proof.
  apply lstrip_of_clean_head, rstrip_clean_head, lstrip_clean_head.
Qed.

Lemma strip_idem (s : string) : strip (strip s) = strip s.
Proof.
  unfold strip at 1. rewrite lstrip_strip. unfold strip. apply rstrip_idem.
Qed.

(** Lowering a trimmed string leaves nothing to trim: the second [strip]
    of [user_message.lower().strip()] changes nothing. *)
Lemma strip_lower_strip (s : string) :
  strip (lower (strip s)) = lower (strip s).
Proof.
  now rewrite <- lower_strip, strip_idem.
Qed.

(** A string trims to nothing exactly when it is white space only. *)
Lemma strip_empty_iff (s : string) :
  strip s = EmptyString <-> all_space s = true.
Proof.
  unfold strip. split.
  - intros H.
    assert (Hl : lstrip s = EmptyString).
    { pose proof (lstrip_clean_head s) as Hc.
      destruct (lstrip s) as [| c r]; [reflexivity |].
      simpl in H, Hc. rewrite Hc in H. destruct (rstrip r); discriminate. }
    clear H. induction s as [| c s IH]; simpl in *; [reflexivity |].
    destruct (isspace c); [now apply IH | discriminate].
  - intros H. induction s as [| c s IH]; simpl in *; [reflexivity |].
    apply andb_true_iff in H as [-> H]. now apply IH.
Qed.

Lemma startswith_spec (s k : string) :
  startswith s k = true <-> exists post, s = k ++ post.
Proof.
  revert s. induction k as [| a k IH]; intros s; simpl.
  - split; [intros _; now exists s | now destruct s].
  - destruct s as [| b s].
    + split; [discriminate | intros [post H]; discriminate].
    + simpl. rewrite andb_true_iff, Ascii.eqb_eq, IH. split.
      * intros [-> [post ->]]. now exists post.
      * intros [post H]. injection H as -> ->. split; [reflexivity | now exists post].
Qed.

(** [k in s] is substring containment. *)
Lemma contains_spec (s k : string) :
  contains s k = true <-> exists pre post, s = pre ++ k ++ post.
Proof.
  induction s as [| c s IH].
  - change (contains EmptyString k) with (startswith EmptyString k || false).
    rewrite orb_false_r, startswith_spec. split.
    + intros [post H]. now exists EmptyString, post.
    + intros [pre [post H]]. destruct pre; [now exists post | discriminate].
  - change (contains (String c s) k)
      with (startswith (String c s) k || contains s k).
    rewrite orb_true_iff, startswith_spec, IH. split.
    + intros [[post H] | [pre [post H]]].
      * now exists EmptyString, post.
      * exists (String c pre), post. simpl. now rewrite H.
    + intros [pre [post H]]. destruct pre as [| d pre].
      * left. now exists post.
      * right. simpl in H. injection H as _ H. now exists pre, post.
Qed.

Lemma length_slice_to (n : nat) (s : string) :
  String.length (slice_to n s) = Nat.min n (String.length s).
Proof.
  revert s. induction n as [| n IH]; intros [| c s]; simpl; auto.
Qed.

Lemma slice_to_all (n : nat) (s : string) :
  (String.length s <= n)%nat -> slice_to n s = s.
Proof.
  revert s. induction n as [| n IH]; intros [| c s]; simpl; intros H;
    try reflexivity; try lia.
  f_equal. apply IH. lia.
Qed.

Lemma slice_to_prefix (n : nat) (s : string) :
  exists rest, s = slice_to n s ++ rest.
Proof.
  revert s. induction n as [| n IH]; intros s; simpl.
  - now exists s.
  - destruct s as [| c s]; [now exists EmptyString |].
    destruct (IH s) as [rest H]. exists rest. simpl. now rewrite <- H.
Qed.

Lemma append_empty_r (s : string) : s ++ "" = s.
Proof.
  induction s as [| c s IH]; simpl; [reflexivity | now rewrite IH].
Qed.

Lemma length_append (s t : string) :
  String.length (s ++ t) = (String.length s + String.length t)%nat.
Proof.
  induction s as [| c s IH]; simpl; [reflexivity | now rewrite IH].
Qed.

End StringFacts.

(** ** What [repr] writes *)

Section ReprFacts.

Import PyStr.

Lemma repr_char_plain (c : ascii) :
  plain_char c = true -> repr_char single_quote c = String c EmptyString.
Proof.
  destruct c as [[] [] [] [] [] [] [] []]; intros H; vm_compute in H;
    first [discriminate H | reflexivity].
Qed.

Lemma plain_char_no_quote (c : ascii) :
  plain_char c = true -> Ascii.eqb c single_quote = false.
Proof.
  unfold plain_char. intros H.
  apply andb_true_iff in H as [H _]. apply andb_true_iff in H as [_ H].
  now apply negb_true_iff in H.
Qed.

Lemma repr_body_plain (key : string) :
  plain key = true -> repr_body single_quote key = key.
Proof.
  induction key as [| c key IH]; simpl; [reflexivity |].
  intros H. apply andb_true_iff in H as [Hc H].
  now rewrite (repr_char_plain c Hc), (IH H).
Qed.

Lemma plain_has_no_quote (key : string) :
  plain key = true -> has_char single_quote key = false.
Proof.
  induction key as [| c key IH]; simpl; [reflexivity |].
  intros H. apply andb_true_iff in H as [Hc H].
  now rewrite (plain_char_no_quote c Hc), (IH H).
Qed.

(** The [repr] of a key made of plain characters is the key between single
    quotes. *)
Lemma repr_plain (key : string) :
  plain key = true ->
  repr key = String single_quote (key ++ String single_quote EmptyString).
Proof.
  intros H. unfold repr. rewrite (plain_has_no_quote key H).
  cbv beta iota zeta delta [andb]. now rewrite (repr_body_plain key H).
Qed.

(** A key with a single quote and no double quote goes between double
    quotes, and the single quote stands as it is. *)
Example repr_apostrophe :
  repr "it's" = String double_quote ("it's" ++ String double_quote EmptyString).
Proof.
  reflexivity.
Qed.

(** With both quotes in the key the single quote is used and escaped. *)
Example repr_both_quotes :
  repr (String double_quote "a'b") =
    String single_quote
      (String double_quote
         ("a" ++ String backslash ("'b" ++ String single_quote EmptyString))).
Proof.
  reflexivity.
Qed.

(** A line feed takes its letter and a character that does not print its
    code. *)
Example repr_escapes :
  repr (String (ascii_of_N 10) (String (ascii_of_N 160) EmptyString)) =
    String single_quote
      (String backslash
         ("n" ++ String backslash ("xa0" ++ String single_quote EmptyString))).
Proof.
  reflexivity.
Qed.

End ReprFacts.

(** ** The two loops *)

Section Loops.

Import PyStr.

Lemma source_entry_id (i : Z) (ref : Resp.RetrievedReference) (e : SourceEntry) :
  source_entry i ref = inr e -> id e = i.
Proof.
  unfold source_entry, bind. destruct (snippet_of ref); [discriminate |].
  intros H. injection H as <-. reflexivity.
Qed.

Lemma snippet_of_content (ref : Resp.RetrievedReference) (c : Resp.Content) :
  Resp.content ref = Some c ->
  snippet_of ref =
    inr (slice_to 500 (get (Resp.text c) "") ++
         (if (len (get (Resp.text c) "") >? 500)%Z then "..." else "")).
Proof.
  intros H. unfold snippet_of. rewrite H. reflexivity.
Qed.

Lemma source_entry_total (i : Z) (ref : Resp.RetrievedReference) :
  has_content ref -> exists e, source_entry i ref = inr e.
Proof.
  unfold has_content. destruct (Resp.content ref) as [c |] eqn:E; [| congruence].
  intros _. unfold source_entry. rewrite (snippet_of_content ref c E).
  eexists. reflexivity.
Qed.

Lemma Forall2_nth_error_l {A B : Type} (R : A -> B -> Prop)
  (l : list A) (l' : list B) (j : nat) (a : A) :
  Forall2 R l l' -> nth_error l j = Some a ->
  exists b, nth_error l' j = Some b /\ R a b.
Proof.
  intros H. revert j. induction H as [| x y l l' Hxy _ IH]; intros [| j] Hj;
    simpl in Hj; try discriminate.
  - injection Hj as ->. now exists y.
  - exact (IH j Hj).
Qed.

(** The inner loop appends, in order, one entry per reference. *)
Lemma refs_loop_spec (i : Z) (refs : list Resp.RetrievedReference)
  (acc out : list SourceEntry) :
  refs_loop i refs acc = inr out ->
  exists es, out = (acc ++ es)%list /\
             Forall2 (fun ref e => source_entry i ref = inr e) refs es.
Proof.
  revert acc. induction refs as [| ref rest IH]; intros acc; simpl.
  - intros H. injection H as <-. exists []. now rewrite app_nil_r.
  - unfold bind at 1. destruct (source_entry i ref) as [x | e] eqn:E; [discriminate |].
    intros H. destruct (IH _ H) as [es [-> Hes]].
    exists (e :: es). rewrite <- app_assoc. split; [reflexivity |].
    now constructor.
Qed.

Lemma refs_loop_total (i : Z) (refs : list Resp.RetrievedReference)
  (acc : list SourceEntry) :
  Forall has_content refs -> exists out, refs_loop i refs acc = inr out.
Proof.
  intros H. revert acc. induction H as [| ref rest Href _ IH]; intros acc; simpl.
  - now exists acc.
  - destruct (source_entry_total i ref Href) as [e ->]. simpl. apply IH.
Qed.

Lemma Forall2_entry_ids (i : Z) (refs : list Resp.RetrievedReference)
  (es : list SourceEntry) :
  Forall2 (fun ref e => source_entry i ref = inr e) refs es ->
  map id es = repeat i (List.length refs).
Proof.
  induction 1 as [| ref e refs es He _ IH]; simpl; [reflexivity |].
  now rewrite IH, (source_entry_id _ _ _ He).
Qed.

(** The outer loop: what is appended, how long it is, which ids it carries
    and where the entry of the [j]-th reference of the [k]-th citation
    lands. *)
Lemma citations_loop_spec (cits : list Resp.Citation) :
  forall (i : Z) (acc out : list SourceEntry),
  citations_loop i cits acc = inr out ->
  exists es,
    out = (acc ++ es)%list /\
    List.length es = total_references cits /\
    map id es = citation_ordinals i cits /\
    forall k c j ref,
      nth_error cits k = Some c ->
      nth_error (refs_of c) j = Some ref ->
      exists e, nth_error es (refs_before k cits + j) = Some e /\
                source_entry (i + Z.of_nat k) ref = inr e.
Proof.
  induction cits as [| c rest IH]; intros i acc out; simpl.
  - intros H. injection H as <-. exists []. rewrite app_nil_r.
    repeat split. intros [| k] c j ref Hk; discriminate.
  - unfold bind at 1. fold (refs_of c).
    destruct (refs_loop i (refs_of c) acc) as [x | mid] eqn:E; [discriminate |].
    intros H. destruct (refs_loop_spec _ _ _ _ E) as [es1 [-> H1]].
    destruct (IH _ _ _ H) as [es2 [-> [Hlen [Hids Hnth]]]].
    exists (es1 ++ es2)%list. rewrite <- app_assoc. split; [reflexivity |].
    pose proof (Forall2_length H1) as Hl1.
    split; [rewrite length_app; lia |].
    split; [rewrite map_app, Hids, (Forall2_entry_ids _ _ _ H1); reflexivity |].
    intros [| k] c' j ref Hk Hj; simpl in Hk.
    + injection Hk as <-. unfold refs_before. simpl.
      destruct (Forall2_nth_error_l _ _ _ _ _ H1 Hj) as [e [He Hse]].
      exists e. rewrite Z.add_0_r. split; [| exact Hse].
      rewrite nth_error_app1; [exact He |].
      apply nth_error_Some. congruence.
    + destruct (Hnth k c' j ref Hk Hj) as [e [He Hse]].
      exists e. split.
      * unfold refs_before in *. simpl.
        rewrite Hl1, <- Nat.add_assoc, nth_error_app2 by lia.
        replace (List.length es1 + (total_references (firstn k rest) + j)
                 - List.length es1)%nat
          with (total_references (firstn k rest) + j)%nat by lia.
        exact He.
      * replace (i + Z.of_nat (S k))%Z with (i + 1 + Z.of_nat k)%Z by lia.
        exact Hse.
Qed.

Lemma citations_loop_total (cits : list Resp.Citation) :
  forall (i : Z) (acc : list SourceEntry),
  Forall (fun c => Forall has_content (refs_of c)) cits ->
  exists out, citations_loop i cits acc = inr out.
Proof.
  induction cits as [| c rest IH]; intros i acc H; simpl.
  - now exists acc.
  - inversion H as [| ? ? Hc Hrest]; subst. fold (refs_of c).
    destruct (refs_loop_total i (refs_of c) acc Hc) as [mid ->]. simpl.
    now apply IH.
Qed.

End Loops.

(** ** The handler, case by case *)

Section HandlerFacts.

Import PyStr.

Variable cfg : Config.
Variable client : Service.

Lemma is_empty_false (s : string) : s <> "" -> is_empty s = false.
Proof.
  destruct s; [congruence | reflexivity].
Qed.

Lemma is_empty_true (s : string) : s = "" -> is_empty s = true.
Proof.
  now intros ->.
Qed.

Lemma is_greeting_spec (s : string) :
  is_greeting s = true <-> matches_greeting s.
Proof.
  unfold is_greeting, matches_greeting. rewrite existsb_exists.
  split; intros [keyword [Hin H]]; exists keyword; split; try exact Hin;
    now apply contains_spec.
Qed.

Lemma not_greeting (raw : string) :
  ~ matches_greeting (lower (strip raw)) ->
  is_greeting (strip (lower (strip raw))) = false.
Proof.
  intros H. rewrite strip_lower_strip.
  destruct (is_greeting (lower (strip raw))) eqn:E; [| reflexivity].
  now apply is_greeting_spec in E.
Qed.

(** A request whose message is not blank costs exactly one call, and what
    comes back is what the [try] block makes of it. *)
Lemma chat_calls (request_json : ChatRequest) (log : CallLog) (raw : string) :
  carries request_json raw ->
  strip raw <> "" ->
  chat cfg client request_json log =
    (match
        match client log (build_args cfg (strip raw)) with
        | Returns response => shape (strip raw) response
        | Raises e => inl e
        end
      with
      | inr body => Respond 200 body
      | inl e => Respond 500 [("error", JString (py_str e))]
      end,
     (log ++ [build_args cfg (strip raw)])%list).
Proof.
  intros Hm Hne. unfold chat, carries in *. rewrite Hm. simpl.
  rewrite (is_empty_false _ Hne). unfold retrieve_and_generate.
  destruct (client log (build_args cfg (strip raw))); reflexivity.
Qed.

(** A question that is no greeting, answered by a result that can be read:
    the answer is a 200 whose sources are what the outer loop builds. *)
Lemma chat_question (request_json : ChatRequest) (log : CallLog)
  (raw : string) (response : Resp.Response) (out : Resp.Output)
  (reply : string) :
  carries request_json raw ->
  strip raw <> "" ->
  ~ matches_greeting (lower (strip raw)) ->
  client log (build_args cfg (strip raw)) = Returns response ->
  Resp.output response = Some out ->
  Resp.output_text out = Some reply ->
  Forall (fun c => Forall has_content (refs_of c)) (cits_of response) ->
  exists sources,
    chat cfg client request_json log =
      (Respond 200 [("reply", JString reply); ("sources", JSources sources)],
       (log ++ [build_args cfg (strip raw)])%list) /\
    citations_loop 1 (cits_of response) [] = inr sources.
Proof.
  intros Hm Hne Hng Hcl Ho Ht Hwf.
  rewrite (chat_calls _ _ _ Hm Hne), Hcl.
  destruct (citations_loop_total _ 1%Z [] Hwf) as [sources Hs].
  exists sources. split; [| exact Hs].
  unfold shape. rewrite Ho. simpl. rewrite Ht. simpl.
  rewrite (not_greeting _ Hng). fold (cits_of response). rewrite Hs.
  reflexivity.
Qed.

End HandlerFacts.

(** ** Properties of the specification *)

Section Claims.

Import PyStr.

(** C1: for a message that matches no greeting string, the sources
    returned are as many as the references of all the citations of the
    result, in encounter order: the entry of the [j]-th reference of the
    [k]-th citation (both counted from 0) stands after the entries of all
    the references before it, is the entry shaped from that reference, and
    its id is [k + 1], the ordinal of the citation, whatever the number of
    references met so far. *)
Theorem sources_follow_citations (cfg : Config) (client : Service)
  (request_json : ChatRequest) (log : CallLog) (raw : string)
  (response : Resp.Response) (out : Resp.Output) (reply : string) :
  carries request_json raw ->
  strip raw <> "" ->
  ~ matches_greeting (lower (strip raw)) ->
  client log (build_args cfg (strip raw)) = Returns response ->
  Resp.output response = Some out ->
  Resp.output_text out = Some reply ->
  Forall (fun c => Forall has_content (refs_of c)) (cits_of response) ->
  exists sources,
    fst (chat cfg client request_json log) =
      Respond 200 [("reply", JString reply); ("sources", JSources sources)] /\
    List.length sources = total_references (cits_of response) /\
    forall k c j ref,
      nth_error (cits_of response) k = Some c ->
      nth_error (refs_of c) j = Some ref ->
      exists e,
        nth_error sources (refs_before k (cits_of response) + j) = Some e /\
        source_entry (Z.of_nat k + 1) ref = inr e /\
        id e = (Z.of_nat k + 1)%Z.
Proof.
  intros Hm Hne Hng Hcl Ho Ht Hwf.
  destruct (chat_question cfg client _ log _ _ _ _ Hm Hne Hng Hcl Ho Ht Hwf)
    as [sources [Hchat Hloop]].
  exists sources. rewrite Hchat. split; [reflexivity |].
  destruct (citations_loop_spec _ _ _ _ Hloop) as [es [Hes [Hlen [_ Hnth]]]].
  simpl in Hes. subst es. split; [exact Hlen |].
  intros k c j ref Hk Hj.
  destruct (Hnth k c j ref Hk Hj) as [e [He Hse]].
  rewrite Z.add_comm in Hse.
  exists e. repeat split; [exact He | exact Hse |].
  exact (source_entry_id _ _ _ Hse).
Qed.

Lemma sources_follow_citations_witness :
  exists sources,
    fst (chat sample_cfg sample_client sample_question []) =
      Respond 200 [("reply", JString "<div><p>KYC</p></div>");
                   ("sources", JSources sources)] /\
    List.length sources = total_references (cits_of sample_response) /\
    forall k c j ref,
      nth_error (cits_of sample_response) k = Some c ->
      nth_error (refs_of c) j = Some ref ->
      exists e,
        nth_error sources (refs_before k (cits_of sample_response) + j) = Some e /\
        source_entry (Z.of_nat k + 1) ref = inr e /\
        id e = (Z.of_nat k + 1)%Z.
Proof.
  apply (sources_follow_citations sample_cfg sample_client sample_question []
           "  What are POSP KYC rules? " sample_response
           {| Resp.output_text := Some "<div><p>KYC</p></div>" |}).
  - reflexivity.
  - vm_compute. discriminate.
  - intros H. apply is_greeting_spec in H. vm_compute in H. discriminate.
  - reflexivity.
  - reflexivity.
  - reflexivity.
  - repeat constructor; discriminate.
Defined.

(** *** Ids along the list of sources *)

Lemma citation_ordinals_bounds (cits : list Resp.Citation) :
  forall (i x : Z),
  In x (citation_ordinals i cits) ->
  (i <= x < i + Z.of_nat (List.length cits))%Z.
Proof.
  induction cits as [| c rest IH]; intros i x; simpl; [contradiction |].
  rewrite in_app_iff. intros [H | H].
  - apply repeat_spec in H. lia.
  - apply IH in H. lia.
Qed.

Lemma citation_ordinals_monotone (cits : list Resp.Citation) :
  forall (i : Z) (p q : nat) (x y : Z),
  (p <= q)%nat ->
  nth_error (citation_ordinals i cits) p = Some x ->
  nth_error (citation_ordinals i cits) q = Some y ->
  (x <= y)%Z.
Proof.
  induction cits as [| c rest IH]; intros i p q x y Hpq Hp Hq; simpl in *.
  - destruct p; discriminate.
  - set (n := List.length (refs_of c)) in *.
    assert (Hn : List.length (repeat i n) = n) by apply repeat_length.
    destruct (Nat.lt_ge_cases q n) as [Hlt | Hge].
    + rewrite nth_error_app1 in Hp, Hq by lia.
      apply nth_error_In, repeat_spec in Hp, Hq. lia.
    + rewrite nth_error_app2 in Hq by lia.
      destruct (Nat.lt_ge_cases p n) as [Hlt | Hge'].
      * rewrite nth_error_app1 in Hp by lia.
        apply nth_error_In, repeat_spec in Hp.
        apply nth_error_In, citation_ordinals_bounds in Hq. lia.
      * rewrite nth_error_app2 in Hp by lia.
        rewrite Hn in Hp, Hq.
        apply (IH (i + 1)%Z (p - n)%nat (q - n)%nat); [lia | exact Hp | exact Hq].
Qed.

Lemma citation_ordinals_single (cits : list Resp.Citation) :
  Forall (fun c => List.length (refs_of c) = 1%nat) cits ->
  forall (i : Z) (k : nat) (x : Z),
  nth_error (citation_ordinals i cits) k = Some x ->
  x = (i + Z.of_nat k)%Z.
Proof.
  induction 1 as [| c rest Hc _ IH]; intros i k x Hk; simpl in Hk.
  - destruct k; discriminate.
  - rewrite Hc in Hk. destruct k as [| k]; simpl in Hk.
    + injection Hk as <-. lia.
    + apply IH in Hk. lia.
Qed.

Lemma nth_error_id (sources : list SourceEntry) (p : nat) (e : SourceEntry) :
  nth_error sources p = Some e -> nth_error (map id sources) p = Some (id e).
Proof.
  intros H. now rewrite nth_error_map, H.
Qed.

(** C2, as the code has it: the id of an entry is the ordinal of its
    citation, once per reference of that citation, so the ids of the
    sources are the citation ordinals in encounter order; the [k]-th entry
    (counted from 1) has id [k] when every citation holds exactly one
    reference. *)
Theorem ids_are_citation_ordinals (cfg : Config) (client : Service)
  (request_json : ChatRequest) (log : CallLog) (raw : string)
  (response : Resp.Response) (out : Resp.Output) (reply : string) :
  carries request_json raw ->
  strip raw <> "" ->
  ~ matches_greeting (lower (strip raw)) ->
  client log (build_args cfg (strip raw)) = Returns response ->
  Resp.output response = Some out ->
  Resp.output_text out = Some reply ->
  Forall (fun c => Forall has_content (refs_of c)) (cits_of response) ->
  exists sources,
    fst (chat cfg client request_json log) =
      Respond 200 [("reply", JString reply); ("sources", JSources sources)] /\
    map id sources = citation_ordinals 1 (cits_of response) /\
    (Forall (fun c => List.length (refs_of c) = 1%nat) (cits_of response) ->
     forall k e, nth_error sources k = Some e -> id e = (Z.of_nat k + 1)%Z).
Proof.
  intros Hm Hne Hng Hcl Ho Ht Hwf.
  destruct (chat_question cfg client _ log _ _ _ _ Hm Hne Hng Hcl Ho Ht Hwf)
    as [sources [Hchat Hloop]].
  exists sources. rewrite Hchat. split; [reflexivity |].
  destruct (citations_loop_spec _ _ _ _ Hloop) as [es [Hes [_ [Hids _]]]].
  simpl in Hes. subst es. split; [exact Hids |].
  intros Hone k e Hk. apply nth_error_id in Hk. rewrite Hids in Hk.
  rewrite (citation_ordinals_single _ Hone _ _ _ Hk). lia.
Qed.

Lemma ids_are_citation_ordinals_witness :
  exists sources,
    fst (chat sample_cfg sample_client_single sample_question []) =
      Respond 200 [("reply", JString "<div><p>KYC</p></div>");
                   ("sources", JSources sources)] /\
    map id sources = citation_ordinals 1 (cits_of sample_response_single) /\
    (Forall (fun c => List.length (refs_of c) = 1%nat)
            (cits_of sample_response_single) ->
     forall k e, nth_error sources k = Some e -> id e = (Z.of_nat k + 1)%Z).
Proof.
  apply (ids_are_citation_ordinals sample_cfg sample_client_single
           sample_question [] "  What are POSP KYC rules? "
           sample_response_single
           {| Resp.output_text := Some "<div><p>KYC</p></div>" |}).
  - reflexivity.
  - vm_compute. discriminate.
  - intros H. apply is_greeting_spec in H. vm_compute in H. discriminate.
  - reflexivity.
  - reflexivity.
  - reflexivity.
  - repeat constructor; discriminate.
Defined.

(** C2, as it is written, fails: with one citation holding two references
    the answer is a 200 whose second source has id 1, not 2. *)
Lemma ids_not_sequential :
  ~ (forall (cfg : Config) (client : Service) (request_json : ChatRequest)
            (log : CallLog) (raw reply : string) (sources : list SourceEntry),
       carries request_json raw ->
       ~ matches_greeting (lower (strip raw)) ->
       fst (chat cfg client request_json log) =
         Respond 200 [("reply", JString reply); ("sources", JSources sources)] ->
       forall k e,
         nth_error sources k = Some e -> id e = (Z.of_nat k + 1)%Z).
Proof.
  intros H.
  specialize (H sample_cfg sample_client sample_question []
                "  What are POSP KYC rules? " "<div><p>KYC</p></div>"
                [ {| id := 1; snippet := filler "x" 200; file := "s3://a" |};
                  {| id := 1; snippet := filler "y" 500 ++ "...";
                     file := "N/A" |} ]).
  assert (Hid : (1 = Z.of_nat 1 + 1)%Z); [| discriminate Hid].
  apply (H eq_refl) with
    (e := {| id := 1; snippet := filler "y" 500 ++ "..."; file := "N/A" |}).
  - intros G. apply is_greeting_spec in G. vm_compute in G. discriminate.
  - vm_compute. reflexivity.
  - reflexivity.
Qed.

(** C10: in a successful answer to a message that is no greeting, the ids
    never decrease along the list of sources, and each lies between 1 and
    the number of citations of the result. *)
Theorem ids_sorted_and_bounded (cfg : Config) (client : Service)
  (request_json : ChatRequest) (log : CallLog) (raw : string)
  (response : Resp.Response) (out : Resp.Output) (reply : string) :
  carries request_json raw ->
  strip raw <> "" ->
  ~ matches_greeting (lower (strip raw)) ->
  client log (build_args cfg (strip raw)) = Returns response ->
  Resp.output response = Some out ->
  Resp.output_text out = Some reply ->
  Forall (fun c => Forall has_content (refs_of c)) (cits_of response) ->
  exists sources,
    fst (chat cfg client request_json log) =
      Respond 200 [("reply", JString reply); ("sources", JSources sources)] /\
    (forall p q e e',
       (p <= q)%nat ->
       nth_error sources p = Some e ->
       nth_error sources q = Some e' ->
       (id e <= id e')%Z) /\
    (forall e,
       In e sources ->
       (1 <= id e <= Z.of_nat (List.length (cits_of response)))%Z).
Proof.
  intros Hm Hne Hng Hcl Ho Ht Hwf.
  destruct (chat_question cfg client _ log _ _ _ _ Hm Hne Hng Hcl Ho Ht Hwf)
    as [sources [Hchat Hloop]].
  exists sources. rewrite Hchat. split; [reflexivity |].
  destruct (citations_loop_spec _ _ _ _ Hloop) as [es [Hes [_ [Hids _]]]].
  simpl in Hes. subst es. split.
  - intros p q e e' Hpq Hp Hq.
    apply nth_error_id in Hp, Hq. rewrite Hids in Hp, Hq.
    exact (citation_ordinals_monotone _ _ _ _ _ _ Hpq Hp Hq).
  - intros e He. apply (in_map id) in He. rewrite Hids in He.
    apply citation_ordinals_bounds in He. lia.
Qed.

Lemma ids_sorted_and_bounded_witness :
  exists sources,
    fst (chat sample_cfg sample_client sample_question []) =
      Respond 200 [("reply", JString "<div><p>KYC</p></div>");
                   ("sources", JSources sources)] /\
    (forall p q e e',
       (p <= q)%nat ->
       nth_error sources p = Some e ->
       nth_error sources q = Some e' ->
       (id e <= id e')%Z) /\
    (forall e,
       In e sources ->
       (1 <= id e <= Z.of_nat (List.length (cits_of sample_response)))%Z).
Proof.
  apply (ids_sorted_and_bounded sample_cfg sample_client sample_question []
           "  What are POSP KYC rules? " sample_response
           {| Resp.output_text := Some "<div><p>KYC</p></div>" |}).
  - reflexivity.
  - vm_compute. discriminate.
  - intros H. apply is_greeting_spec in H. vm_compute in H. discriminate.
  - reflexivity.
  - reflexivity.
  - reflexivity.
  - repeat constructor; discriminate.
Defined.

(** *** Greetings *)

(** C3: when the trimmed message is not empty and its lower-cased form
    contains one of the twelve greeting strings anywhere, as a substring,
    the answer carries the empty list of sources, whatever citations the
    result holds. *)
Theorem greeting_has_no_sources (cfg : Config) (client : Service)
  (request_json : ChatRequest) (log : CallLog) (raw : string)
  (response : Resp.Response) (out : Resp.Output) (reply : string) :
  carries request_json raw ->
  strip raw <> "" ->
  (exists keyword,
     In keyword
        ["hi"; "hello"; "hii"; "hey"; "good morning"; "good afternoon";
         "good evening"; "what is your name"; "who are you";
         "what can you do"; "your name"; "how are you"] /\
     exists pre post, lower (strip raw) = pre ++ keyword ++ post) ->
  client log (build_args cfg (strip raw)) = Returns response ->
  Resp.output response = Some out ->
  Resp.output_text out = Some reply ->
  fst (chat cfg client request_json log) =
    Respond 200 [("reply", JString reply); ("sources", JSources [])].
Proof.
  intros Hm Hne Hg Hcl Ho Ht.
  rewrite (chat_calls cfg client _ _ _ Hm Hne), Hcl. simpl.
  unfold shape. rewrite Ho. simpl. rewrite Ht. simpl.
  rewrite strip_lower_strip.
  apply (is_greeting_spec (lower (strip raw))) in Hg. now rewrite Hg.
Qed.

Lemma greeting_has_no_sources_witness :
  fst (chat sample_cfg sample_client sample_this []) =
    Respond 200 [("reply", JString "<div><p>KYC</p></div>");
                 ("sources", JSources [])].
Proof.
  apply (greeting_has_no_sources sample_cfg sample_client sample_this []
           "Explain THIS rule" sample_response
           {| Resp.output_text := Some "<div><p>KYC</p></div>" |}).
  - reflexivity.
  - vm_compute. discriminate.
  - exists "hi". split; [simpl; auto |].
    exists "explain t", "s rule". reflexivity.
  - reflexivity.
  - reflexivity.
  - reflexivity.
Defined.

(** *** One source entry *)

(** C4: the snippet of a reference is its text when the text has at most
    500 characters (exactly 500 included), and the first 500 characters of
    the text followed by three dots when it has 501 or more; it never has
    more than 503 characters. *)
Theorem snippet_truncation (i : Z) (ref : Resp.RetrievedReference)
  (c : Resp.Content) (t : string) :
  Resp.content ref = Some c ->
  Resp.text c = Some t ->
  exists e,
    source_entry i ref = inr e /\
    (String.length t = 500%nat -> snippet e = t) /\
    ((String.length t <= 500)%nat -> snippet e = t) /\
    ((501 <= String.length t)%nat ->
     exists head rest,
       t = head ++ rest /\ String.length head = 500%nat /\
       snippet e = head ++ "...") /\
    (String.length (snippet e) <= 503)%nat.
Proof.
  intros Hc Ht.
  set (tail := if (len t >? 500)%Z then "..." else "").
  exists {| id := i; snippet := slice_to 500 t ++ tail; file := uri_of ref |}.
  split.
  { unfold source_entry. rewrite (snippet_of_content ref c Hc), Ht. reflexivity. }
  change (snippet {| id := i; snippet := slice_to 500 t ++ tail;
                     file := uri_of ref |})
    with (slice_to 500 t ++ tail).
  pose proof (length_slice_to 500 t) as Hlen.
  assert (Hshort : (String.length t <= 500)%nat -> slice_to 500 t ++ tail = t).
  { intros Hle. unfold tail, len.
    destruct (Z.gtb_spec (Z.of_nat (String.length t)) 500) as [Hgt | _]; [lia |].
    rewrite (slice_to_all 500 t Hle). apply append_empty_r. }
  split; [intros H; apply Hshort; lia |].
  split; [exact Hshort |].
  split.
  - intros Hlong. unfold tail, len.
    destruct (Z.gtb_spec (Z.of_nat (String.length t)) 500) as [_ | Hle]; [| lia].
    destruct (slice_to_prefix 500 t) as [rest Hrest].
    exists (slice_to 500 t), rest. split; [exact Hrest |].
    split; [lia | reflexivity].
  - rewrite length_append.
    assert (String.length tail <= 3)%nat; [| lia].
    unfold tail. destruct (len t >? 500)%Z; simpl; lia.
Qed.

Lemma snippet_truncation_witness :
  exists e,
    source_entry 1 sample_ref_long = inr e /\
    (String.length (filler "y" 600) = 500%nat -> snippet e = filler "y" 600) /\
    ((String.length (filler "y" 600) <= 500)%nat ->
     snippet e = filler "y" 600) /\
    ((501 <= String.length (filler "y" 600))%nat ->
     exists head rest,
       filler "y" 600 = head ++ rest /\ String.length head = 500%nat /\
       snippet e = head ++ "...") /\
    (String.length (snippet e) <= 503)%nat.
Proof.
  apply (snippet_truncation 1 sample_ref_long
           {| Resp.text := Some (filler "y" 600) |} (filler "y" 600)).
  - reflexivity.
  - reflexivity.
Defined.

(** C7: the [file] of an entry is the locator of its reference, as it is,
    when the reference has one; it is the string N/A when the location, the
    s3Location in it or the uri in that is missing. *)
Theorem file_is_locator_or_na (i : Z) (ref : Resp.RetrievedReference)
  (e : SourceEntry) :
  source_entry i ref = inr e ->
  (forall loc s3 u,
     Resp.location ref = Some loc ->
     Resp.s3Location loc = Some s3 ->
     Resp.uri s3 = Some u ->
     file e = u) /\
  (Resp.location ref = None -> file e = "N/A") /\
  (forall loc,
     Resp.location ref = Some loc ->
     Resp.s3Location loc = None ->
     file e = "N/A") /\
  (forall loc s3,
     Resp.location ref = Some loc ->
     Resp.s3Location loc = Some s3 ->
     Resp.uri s3 = None ->
     file e = "N/A").
Proof.
  unfold source_entry, bind. destruct (snippet_of ref); [discriminate |].
  intros H. injection H as <-. simpl file. unfold uri_of.
  repeat split.
  - intros loc s3 u -> Hs. simpl. rewrite Hs. simpl. now intros ->.
  - now intros ->.
  - intros loc -> Hs. simpl. now rewrite Hs.
  - intros loc s3 -> Hs. simpl. rewrite Hs. simpl. now intros ->.
Qed.

Lemma file_is_locator_or_na_witness :
  (forall loc s3 u,
     Resp.location sample_ref_long = Some loc ->
     Resp.s3Location loc = Some s3 ->
     Resp.uri s3 = Some u ->
     file {| id := 1; snippet := filler "y" 500 ++ "..."; file := "N/A" |} = u) /\
  (Resp.location sample_ref_long = None ->
   file {| id := 1; snippet := filler "y" 500 ++ "..."; file := "N/A" |}
   = "N/A") /\
  (forall loc,
     Resp.location sample_ref_long = Some loc ->
     Resp.s3Location loc = None ->
     file {| id := 1; snippet := filler "y" 500 ++ "..."; file := "N/A" |}
     = "N/A") /\
  (forall loc s3,
     Resp.location sample_ref_long = Some loc ->
     Resp.s3Location loc = Some s3 ->
     Resp.uri s3 = None ->
     file {| id := 1; snippet := filler "y" 500 ++ "..."; file := "N/A" |}
     = "N/A").
Proof.
  apply (file_is_locator_or_na 1 sample_ref_long).
  vm_compute. reflexivity.
Defined.

(** C9: a reference whose content has no text does not stop the loop: one
    entry is still appended for it, at its place among the entries of the
    references around it, and its snippet is the empty string, with no
    dots. *)
Theorem textless_reference_is_kept (i : Z) (ref : Resp.RetrievedReference)
  (c : Resp.Content) (before after : list Resp.RetrievedReference)
  (acc sources_before : list SourceEntry) :
  Resp.content ref = Some c ->
  Resp.text c = None ->
  refs_loop i before acc = inr sources_before ->
  Forall has_content after ->
  exists e out,
    source_entry i ref = inr e /\
    snippet e = "" /\
    id e = i /\
    refs_loop i (before ++ ref :: after)%list acc = inr out /\
    nth_error out (List.length sources_before) = Some e /\
    List.length out =
      (List.length sources_before + 1 + List.length after)%nat.
Proof.
  intros Hc Ht Hb Ha.
  set (entry := {| id := i; snippet := ""; file := uri_of ref |}).
  assert (He : source_entry i ref = inr entry).
  { unfold source_entry. rewrite (snippet_of_content ref c Hc), Ht. reflexivity. }
  assert (Happ : forall l1 l2 a,
            refs_loop i (l1 ++ l2)%list a =
            (mid <- refs_loop i l1 a ;; refs_loop i l2 mid)).
  { induction l1 as [| r l1 IH]; intros l2 a; simpl; [reflexivity |].
    destruct (source_entry i r); simpl; [reflexivity | apply IH]. }
  destruct (refs_loop_total i after (sources_before ++ [entry])%list Ha)
    as [out Hout].
  exists entry, out.
  destruct (refs_loop_spec _ _ _ _ Hout) as [es [Hes Hall]].
  repeat split; try exact He.
  - rewrite Happ, Hb. simpl. rewrite He. simpl. exact Hout.
  - rewrite Hes, <- app_assoc, nth_error_app2 by lia.
    now rewrite Nat.sub_diag.
  - apply Forall2_length in Hall. rewrite Hes, !length_app. simpl. lia.
Qed.

Lemma textless_reference_is_kept_witness :
  exists e out,
    source_entry 2 sample_ref_textless = inr e /\
    snippet e = "" /\
    id e = 2%Z /\
    refs_loop 2 ([sample_ref_short] ++ sample_ref_textless :: [sample_ref_long])%list
      [] = inr out /\
    nth_error out
      (List.length [ {| id := 2; snippet := filler "x" 200; file := "s3://a" |} ])
      = Some e /\
    List.length out =
      (List.length [ {| id := 2; snippet := filler "x" 200; file := "s3://a" |} ]
       + 1 + List.length [sample_ref_long])%nat.
Proof.
  apply (textless_reference_is_kept 2 sample_ref_textless
           {| Resp.text := None |} [sample_ref_short] [sample_ref_long] []
           [ {| id := 2; snippet := filler "x" 200; file := "s3://a" |} ]).
  - reflexivity.
  - reflexivity.
  - vm_compute. reflexivity.
  - repeat constructor; discriminate.
Defined.

(** *** Rejections and failures *)

(** C5: when the body has no message, or a message that is empty once
    trimmed, the answer is a 400 whose body is the one field error with
    the text Empty message, and the call log is left as it was: the
    service is not called. *)
Theorem blank_message_rejected (cfg : Config) (client : Service)
  (request_json : ChatRequest) (log : CallLog) :
  (message request_json = None \/
   exists raw, carries request_json raw /\ strip raw = "") ->
  chat cfg client request_json log =
    (Respond 400 [("error", JString "Empty message")], log).
Proof.
  unfold chat, carries. intros [H | [raw [H Hblank]]]; rewrite H; simpl.
  - reflexivity.
  - now rewrite (is_empty_true _ Hblank).
Qed.

Lemma blank_message_rejected_witness :
  chat sample_cfg sample_client sample_blank [] =
    (Respond 400 [("error", JString "Empty message")], []).
Proof.
  apply (blank_message_rejected sample_cfg sample_client sample_blank []).
  right. exists (String (ascii_of_N 9) "  "). split; reflexivity.
Defined.

(** C6: when the service raises, or when it returns and shaping its
    result raises, the answer is a 500 whose body has the text of the
    exception under error and has neither reply nor sources; the service
    has been called once, and the answer depends on the exception through
    its text only.  The text is the message of the exception; for a
    [KeyError] it is the [repr] of the key, which for a key made of plain
    characters is the key between single quotes. *)
Theorem failure_answers_500 (cfg : Config) (client : Service)
  (request_json : ChatRequest) (log : CallLog) (raw : string) (e : PyExn) :
  carries request_json raw ->
  strip raw <> "" ->
  (client log (build_args cfg (strip raw)) = Raises e \/
   exists response,
     client log (build_args cfg (strip raw)) = Returns response /\
     shape (strip raw) response = inl e) ->
  exists body,
    chat cfg client request_json log =
      (Respond 500 body, (log ++ [build_args cfg (strip raw)])%list) /\
    body = [("error", JString (py_str e))] /\
    field "error" body = Some (JString (py_str e)) /\
    field "reply" body = None /\
    field "sources" body = None /\
    match e with
    | ServiceError description =>
        field "error" body = Some (JString description)
    | AttributeError msg =>
        field "error" body = Some (JString msg)
    | KeyError key =>
        field "error" body = Some (JString (repr key)) /\
        (plain key = true ->
         field "error" body =
           Some (JString (String single_quote
                            (key ++ String single_quote EmptyString))))
    end.
Proof.
  intros Hm Hne Hfail.
  exists [("error", JString (py_str e))].
  split.
  - rewrite (chat_calls cfg client _ _ _ Hm Hne).
    destruct Hfail as [-> | [response [-> ->]]]; reflexivity.
  - split; [reflexivity |]. split; [reflexivity |].
    split; [reflexivity |]. split; [reflexivity |].
    destruct e as [key | msg | description]; simpl; try reflexivity.
    split; [reflexivity |].
    intros Hplain. now rewrite (repr_plain key Hplain).
Qed.

Lemma failure_answers_500_witness :
  exists body,
    chat sample_cfg sample_client_broken sample_question [] =
      (Respond 500 body,
       ([] ++ [build_args sample_cfg (strip "  What are POSP KYC rules? ")])%list) /\
    body = [("error", JString "'output'")] /\
    field "error" body = Some (JString "'output'") /\
    field "reply" body = None /\
    field "sources" body = None /\
    (field "error" body = Some (JString (repr "output")) /\
     (plain "output" = true ->
      field "error" body = Some (JString "'output'"))).
Proof.
  apply (failure_answers_500 sample_cfg sample_client_broken sample_question
           [] "  What are POSP KYC rules? " (KeyError "output")).
  - reflexivity.
  - vm_compute. discriminate.
  - right. exists sample_response_broken. split; reflexivity.
Defined.

(** What the service raises reaches the client as it is, whatever it
    holds. *)
Example service_text_is_passed :
  fst (chat sample_cfg (fun _ _ => Raises (ServiceError "it's down"))
         sample_question []) =
    Respond 500 [("error", JString "it's down")].
Proof.
  reflexivity.
Qed.

(** A [KeyError] raised by the service on a key with a single quote comes
    out between double quotes. *)
Example key_error_text_uses_repr :
  fst (chat sample_cfg (fun _ _ => Raises (KeyError "it's"))
         sample_question []) =
    Respond 500
      [("error",
        JString (String double_quote ("it's" ++ String double_quote EmptyString)))].
Proof.
  reflexivity.
Qed.

(** *** The request sent *)

(** C8: for a message that is not empty once trimmed, one request is sent;
    its input text is the trimmed message, character for character, and it
    carries maxTokens 6000, temperature 0.0, topP 0.99, no stop sequence
    and numberOfResults 10.  Everything in it but the input text is the
    same for any other message. *)
Theorem request_is_fixed_but_text (cfg : Config) (client : Service)
  (request_json : ChatRequest) (log : CallLog) (raw other : string) :
  carries request_json raw ->
  strip raw <> "" ->
  exists args,
    snd (chat cfg client request_json log) = (log ++ [args])%list /\
    Req.text (Req.input args) = strip raw /\
    (let kb := Req.knowledgeBaseConfiguration
                 (Req.retrieveAndGenerateConfiguration args) in
     let inference := Req.textInferenceConfig
                        (Req.inferenceConfig (Req.generationConfiguration kb)) in
     Req.maxTokens inference = 6000%Z /\
     Req.temperature inference = 0 # 1 /\
     Req.topP inference = 99 # 100 /\
     Req.stopSequences inference = [] /\
     Req.numberOfResults
       (Req.vectorSearchConfiguration (Req.retrievalConfiguration kb)) = 10%Z) /\
    Req.retrieveAndGenerateConfiguration args =
      Req.retrieveAndGenerateConfiguration (build_args cfg other).
Proof.
  intros Hm Hne. exists (build_args cfg (strip raw)).
  rewrite (chat_calls cfg client _ _ _ Hm Hne).
  repeat split.
Qed.

Lemma request_is_fixed_but_text_witness :
  exists args,
    snd (chat sample_cfg sample_client sample_question []) = ([] ++ [args])%list /\
    Req.text (Req.input args) = strip "  What are POSP KYC rules? " /\
    (let kb := Req.knowledgeBaseConfiguration
                 (Req.retrieveAndGenerateConfiguration args) in
     let inference := Req.textInferenceConfig
                        (Req.inferenceConfig (Req.generationConfiguration kb)) in
     Req.maxTokens inference = 6000%Z /\
     Req.temperature inference = 0 # 1 /\
     Req.topP inference = 99 # 100 /\
     Req.stopSequences inference = [] /\
     Req.numberOfResults
       (Req.vectorSearchConfiguration (Req.retrievalConfiguration kb)) = 10%Z) /\
    Req.retrieveAndGenerateConfiguration args =
      Req.retrieveAndGenerateConfiguration
        (build_args sample_cfg "<b>'; DROP TABLE users; --</b>").
Proof.
  apply (request_is_fixed_but_text sample_cfg sample_client sample_question []
           "  What are POSP KYC rules? " "<b>'; DROP TABLE users; --</b>").
  - reflexivity.
  - vm_compute. discriminate.
Defined.

(** *** The examples of the specification *)

(** The message hello, with citations in the result: no sources, and the
    reply as the service gave it. *)
Example end_to_end_hello :
  chat sample_cfg sample_client sample_hello [] =
    (Respond 200 [("reply", JString "<div><p>KYC</p></div>");
                  ("sources", JSources [])],
     [build_args sample_cfg "Hello"]).
Proof.
  vm_compute. reflexivity.
Qed.

(** One citation holding a reference of 200 characters with a locator and
    one of 600 characters without. *)
Example end_to_end_question :
  fst (chat sample_cfg sample_client sample_question []) =
    Respond 200
      [("reply", JString "<div><p>KYC</p></div>");
       ("sources",
        JSources
          [ {| id := 1; snippet := filler "x" 200; file := "s3://a" |};
            {| id := 1; snippet := filler "y" 500 ++ "..."; file := "N/A" |} ])].
Proof.
  vm_compute. reflexivity.
Qed.

(** The service is down: a 500 carrying its message. *)
Example end_to_end_service_down :
  fst (chat sample_cfg sample_client_down sample_question []) =
    Respond 500
      [("error", JString "An error occurred (ThrottlingException)")].
Proof.
  reflexivity.
Qed.

(** A message that is no string escapes the handler: the two first lines
    are outside the [try]. *)
Example non_string_message_escapes :
  chat sample_cfg sample_client {| message := Some (MOther "NoneType") |} [] =
    (Unhandled
       (AttributeError "'NoneType' object has no attribute 'strip'"), []).
Proof.
  reflexivity.
Qed.

End Claims.

(** ** Trimming, further *)

Section TrimFacts.

Import PyStr.

Lemma append_assoc (a b c : string) : (a ++ b) ++ c = a ++ b ++ c.
Proof.
  induction a as [| x a IH]; simpl; [reflexivity | now rewrite IH].
Qed.

Lemma all_space_append (a b : string) :
  all_space (a ++ b) = all_space a && all_space b.
Proof.
  induction a as [| x a IH]; simpl; [reflexivity |].
  now rewrite IH, andb_assoc.
Qed.

Lemma lstrip_pad (pad s : string) :
  all_space pad = true -> lstrip (pad ++ s) = lstrip s.
Proof.
  induction pad as [| c pad IH]; simpl; [reflexivity |].
  intros H. apply andb_true_iff in H as [-> H]. now apply IH.
Qed.

Lemma rstrip_all_space (pad : string) :
  all_space pad = true -> rstrip pad = EmptyString.
Proof.
  induction pad as [| c pad IH]; simpl; [reflexivity |].
  intros H. apply andb_true_iff in H as [Hc H]. now rewrite (IH H), Hc.
Qed.

Lemma rstrip_pad (s pad : string) :
  all_space pad = true -> rstrip (s ++ pad) = rstrip s.
Proof.
  intros H. induction s as [| c s IH]; simpl.
  - now apply rstrip_all_space.
  - now rewrite IH.
Qed.

Lemma lstrip_append (s t : string) :
  all_space s = false -> lstrip (s ++ t) = lstrip s ++ t.
Proof.
  induction s as [| c s IH]; simpl; [discriminate |].
  destruct (isspace c); simpl; [exact IH | reflexivity].
Qed.

Lemma lstrip_all_space (s : string) :
  all_space s = true -> lstrip s = EmptyString.
Proof.
  induction s as [| c s IH]; simpl; [reflexivity |].
  intros H. apply andb_true_iff in H as [-> H]. now apply IH.
Qed.

(** White space around a string does not change what it trims to. *)
Lemma strip_pad (before s after : string) :
  all_space before = true -> all_space after = true ->
  strip (before ++ s ++ after) = strip s.
Proof.
  intros Hb Ha. unfold strip. rewrite (lstrip_pad _ _ Hb).
  destruct (all_space s) eqn:Es.
  - rewrite (lstrip_all_space s Es).
    rewrite lstrip_all_space; [reflexivity |].
    now rewrite all_space_append, Es, Ha.
  - rewrite (lstrip_append _ _ Es). now apply rstrip_pad.
Qed.

Lemma lstrip_split (s : string) :
  exists pre, s = pre ++ lstrip s /\ all_space pre = true.
Proof.
  induction s as [| c s [pre [IH Hpre]]]; simpl.
  - now exists EmptyString.
  - destruct (isspace c) eqn:Ec.
    + exists (String c pre). simpl. now rewrite <- IH, Ec, Hpre.
    + now exists EmptyString.
Qed.

Lemma rstrip_split (s : string) :
  exists post, s = rstrip s ++ post /\ all_space post = true.
Proof.
  induction s as [| c s [post [IH Hpost]]]; simpl.
  - now exists EmptyString.
  - destruct (rstrip s) as [| d r] eqn:E.
    + simpl in IH. destruct (isspace c) eqn:Ec.
      * exists (String c post). simpl. rewrite Ec, Hpost.
        split; [f_equal; exact IH | reflexivity].
      * exists post. simpl. split; [f_equal; exact IH | exact Hpost].
    + exists post. simpl in *. split; [f_equal; exact IH | exact Hpost].
Qed.

(** A string is its trimmed form between two runs of white space. *)
Lemma strip_split (s : string) :
  exists pre post,
    s = pre ++ strip s ++ post /\
    all_space pre = true /\ all_space post = true.
Proof.
  destruct (lstrip_split s) as [pre [Hs Hpre]].
  destruct (rstrip_split (lstrip s)) as [post [Hl Hpost]].
  exists pre, post. unfold strip. now rewrite <- Hl.
Qed.

Lemma rstrip_last (s init : string) (c : ascii) :
  rstrip s = init ++ String c EmptyString -> isspace c = false.
Proof.
  revert init. induction s as [| a s IH]; intros init; simpl.
  - destruct init; discriminate.
  - destruct (rstrip s) as [| d r] eqn:E.
    + destruct (isspace a) eqn:Ea.
      * destruct init; discriminate.
      * destruct init as [| x init]; simpl; intros H.
        -- now injection H as <-.
        -- injection H as _ H. destruct init; discriminate.
    + destruct init as [| x init]; simpl; intros H.
      * discriminate.
      * injection H as _ H. exact (IH init H).
Qed.

Lemma strip_first (s rest : string) (c : ascii) :
  strip s = String c rest -> isspace c = false.
Proof.
  intros H. pose proof (rstrip_clean_head _ (lstrip_clean_head s)) as Hc.
  fold (strip s) in Hc. now rewrite H in Hc.
Qed.

End TrimFacts.

(** ** When the loops fail *)

Section LoopFailures.

Import PyStr.

Lemma source_entry_inl (i : Z) (ref : Resp.RetrievedReference) (e : PyExn) :
  source_entry i ref = inl e ->
  e = KeyError "content" /\ Resp.content ref = None.
Proof.
  unfold source_entry, snippet_of, subscript.
  destruct (Resp.content ref); simpl; [discriminate |].
  intros H. injection H as <-. now split.
Qed.

Lemma source_entry_inr (i : Z) (ref : Resp.RetrievedReference)
  (e : SourceEntry) :
  source_entry i ref = inr e -> has_content ref.
Proof.
  unfold source_entry, snippet_of, subscript, has_content.
  destruct (Resp.content ref); simpl; [discriminate | discriminate].
Qed.

Lemma refs_loop_inl (i : Z) (refs : list Resp.RetrievedReference) :
  forall (acc : list SourceEntry) (e : PyExn),
  refs_loop i refs acc = inl e ->
  e = KeyError "content" /\
  Exists (fun ref => Resp.content ref = None) refs.
Proof.
  induction refs as [| ref rest IH]; intros acc e; simpl; [discriminate |].
  destruct (source_entry i ref) as [x | entry] eqn:E; simpl.
  - intros H. injection H as <-.
    destruct (source_entry_inl _ _ _ E) as [-> Hc]. split; [reflexivity |].
    now constructor.
  - intros H. destruct (IH _ _ H) as [-> Hex]. split; [reflexivity |].
    now apply Exists_cons_tl.
Qed.

Lemma refs_loop_inr (i : Z) (refs : list Resp.RetrievedReference)
  (acc out : list SourceEntry) :
  refs_loop i refs acc = inr out -> Forall has_content refs.
Proof.
  intros H. destruct (refs_loop_spec _ _ _ _ H) as [es [_ Hall]].
  clear H. induction Hall as [| ref e refs es He _ IH]; [constructor |].
  constructor; [exact (source_entry_inr _ _ _ He) | exact IH].
Qed.

Lemma citations_loop_inl (cits : list Resp.Citation) :
  forall (i : Z) (acc : list SourceEntry) (e : PyExn),
  citations_loop i cits acc = inl e ->
  e = KeyError "content" /\ has_unreadable cits.
Proof.
  unfold has_unreadable.
  induction cits as [| c rest IH]; intros i acc e; simpl; [discriminate |].
  fold (refs_of c).
  destruct (refs_loop i (refs_of c) acc) as [x | mid] eqn:E; simpl.
  - intros H. injection H as <-.
    destruct (refs_loop_inl _ _ _ _ E) as [-> Hex]. split; [reflexivity |].
    now constructor.
  - intros H. destruct (IH _ _ _ H) as [-> Hex]. split; [reflexivity |].
    now apply Exists_cons_tl.
Qed.

Lemma citations_loop_inr (cits : list Resp.Citation) :
  forall (i : Z) (acc out : list SourceEntry),
  citations_loop i cits acc = inr out ->
  Forall (fun c => Forall has_content (refs_of c)) cits.
Proof.
  induction cits as [| c rest IH]; intros i acc out; simpl; [constructor |].
  fold (refs_of c).
  destruct (refs_loop i (refs_of c) acc) as [x | mid] eqn:E; simpl;
    [discriminate |].
  intros H. constructor; [exact (refs_loop_inr _ _ _ _ E) | exact (IH _ _ _ H)].
Qed.

Lemma unreadable_not_readable (cits : list Resp.Citation) :
  has_unreadable cits ->
  ~ Forall (fun c => Forall has_content (refs_of c)) cits.
Proof.
  unfold has_unreadable, has_content. intros Hex Hall.
  apply Exists_exists in Hex as [c [Hc Hex]].
  apply Exists_exists in Hex as [ref [Href Hnone]].
  rewrite Forall_forall in Hall. specialize (Hall c Hc).
  rewrite Forall_forall in Hall. exact (Hall ref Href Hnone).
Qed.

(** What the [try] block makes of a result, key by key. *)
Lemma shape_cases (user_message : string) (response : Resp.Response) :
  shape user_message response =
    match Resp.output response with
    | None => inl (KeyError "output")
    | Some out =>
        match Resp.output_text out with
        | None => inl (KeyError "text")
        | Some reply =>
            if is_greeting (strip (lower user_message))
            then inr [("reply", JString reply); ("sources", JSources [])]
            else
              match citations_loop 1 (cits_of response) [] with
              | inl e => inl e
              | inr sources =>
                  inr [("reply", JString reply); ("sources", JSources sources)]
              end
        end
    end.
Proof.
  unfold shape, cits_of.
  destruct (Resp.output response) as [out |]; simpl; [| reflexivity].
  destruct (Resp.output_text out) as [reply |]; simpl; [| reflexivity].
  destruct (is_greeting (strip (lower user_message))); simpl; [reflexivity |].
  destruct (citations_loop 1 (get (Resp.citations response) []) []);
    reflexivity.
Qed.

End LoopFailures.

(** ** More about the handler *)

Section HandlerExtras.

Import PyStr.

(** X5: the text sent to the service is the message without the white space
    around it: the message is that text between two runs of white space,
    and the text neither starts nor ends with a white space character. *)
Theorem sent_text_is_trimmed (cfg : Config) (client : Service)
  (request_json : ChatRequest) (log : CallLog) (raw : string) :
  carries request_json raw ->
  strip raw <> "" ->
  exists args pre post,
    snd (chat cfg client request_json log) = (log ++ [args])%list /\
    raw = pre ++ Req.text (Req.input args) ++ post /\
    all_space pre = true /\
    all_space post = true /\
    (forall c rest,
       Req.text (Req.input args) = String c rest -> isspace c = false) /\
    (forall init c,
       Req.text (Req.input args) = init ++ String c EmptyString ->
       isspace c = false).
Proof.
  intros Hm Hne.
  destruct (strip_split raw) as [pre [post [Hraw [Hpre Hpost]]]].
  exists (build_args cfg (strip raw)), pre, post.
  rewrite (chat_calls cfg client _ _ _ Hm Hne). simpl.
  repeat split; try assumption.
  - intros c rest H. exact (strip_first _ _ _ H).
  - intros init c H. exact (rstrip_last _ _ _ H).
Qed.

Lemma sent_text_is_trimmed_witness :
  exists args pre post,
    snd (chat sample_cfg sample_client sample_question []) = ([] ++ [args])%list /\
    "  What are POSP KYC rules? " = pre ++ Req.text (Req.input args) ++ post /\
    all_space pre = true /\
    all_space post = true /\
    (forall c rest,
       Req.text (Req.input args) = String c rest -> isspace c = false) /\
    (forall init c,
       Req.text (Req.input args) = init ++ String c EmptyString ->
       isspace c = false).
Proof.
  apply (sent_text_is_trimmed sample_cfg sample_client sample_question []
           "  What are POSP KYC rules? ").
  - reflexivity.
  - vm_compute. discriminate.
Defined.

(** X6: white space before and after the message changes neither the answer
    nor what is sent to the service. *)
Theorem padding_changes_nothing (cfg : Config) (client : Service)
  (log : CallLog) (before raw after : string) :
  all_space before = true ->
  all_space after = true ->
  chat cfg client {| message := Some (MStr (before ++ raw ++ after)) |} log =
  chat cfg client {| message := Some (MStr raw) |} log.
Proof.
  intros Hb Ha. unfold chat. simpl.
  now rewrite (strip_pad before raw after Hb Ha).
Qed.

Lemma padding_changes_nothing_witness :
  chat sample_cfg sample_client
    {| message := Some (MStr ("  " ++ "What are POSP KYC rules?" ++ " ")) |} [] =
  chat sample_cfg sample_client
    {| message := Some (MStr "What are POSP KYC rules?") |} [].
Proof.
  apply (padding_changes_nothing sample_cfg sample_client []
           "  " "What are POSP KYC rules?" " ").
  - reflexivity.
  - reflexivity.
Defined.

(** X2: for a message that is not blank, the answer is a 200 exactly when the
    service returns a result that has its output and the text in it, and
    either the message is a greeting or every reference of every citation
    has its content. *)
Theorem answers_200_iff (cfg : Config) (client : Service)
  (request_json : ChatRequest) (log : CallLog) (raw : string) :
  carries request_json raw ->
  strip raw <> "" ->
  (exists body, fst (chat cfg client request_json log) = Respond 200 body) <->
  (exists response out reply,
     client log (build_args cfg (strip raw)) = Returns response /\
     Resp.output response = Some out /\
     Resp.output_text out = Some reply /\
     (matches_greeting (lower (strip raw)) \/
      Forall (fun c => Forall has_content (refs_of c)) (cits_of response))).
Proof.
  intros Hm Hne. rewrite (chat_calls cfg client _ _ _ Hm Hne). simpl.
  destruct (client log (build_args cfg (strip raw))) as [response | e].
  - rewrite shape_cases, strip_lower_strip. split.
    + intros [body H].
      destruct (Resp.output response) as [out |] eqn:Ho; [| discriminate].
      destruct (Resp.output_text out) as [reply |] eqn:Ht; [| discriminate].
      exists response, out, reply.
      split; [reflexivity | split; [exact Ho | split; [exact Ht |]]].
      destruct (is_greeting (lower (strip raw))) eqn:Eg.
      * left. now apply is_greeting_spec.
      * right.
        destruct (citations_loop 1 (cits_of response) []) as [x | sources] eqn:El;
          [discriminate |].
        exact (citations_loop_inr _ _ _ _ El).
    + intros [r [out [reply [Hr [Ho [Ht Hok]]]]]].
      injection Hr as <-. rewrite Ho, Ht.
      destruct (is_greeting (lower (strip raw))) eqn:Eg; [eexists; reflexivity |].
      destruct Hok as [Hg | Hall].
      * apply is_greeting_spec in Hg. congruence.
      * destruct (citations_loop_total _ 1%Z [] Hall) as [sources ->].
        eexists. reflexivity.
  - split.
    + intros [body H]. discriminate.
    + intros [r [out [reply [Hr _]]]]. discriminate.
Qed.

Lemma answers_200_iff_witness :
  (exists body,
     fst (chat sample_cfg sample_client sample_question []) = Respond 200 body) <->
  (exists response out reply,
     sample_client [] (build_args sample_cfg (strip "  What are POSP KYC rules? "))
       = Returns response /\
     Resp.output response = Some out /\
     Resp.output_text out = Some reply /\
     (matches_greeting (lower (strip "  What are POSP KYC rules? ")) \/
      Forall (fun c => Forall has_content (refs_of c)) (cits_of response))).
Proof.
  apply (answers_200_iff sample_cfg sample_client sample_question []
           "  What are POSP KYC rules? ").
  - reflexivity.
  - vm_compute. discriminate.
Defined.

(** X4: one reference without content spoils the whole answer of a message
    that is no greeting: it is a 500 naming the key, and none of the
    sources built before it is returned. *)
Theorem unreadable_reference_fails (cfg : Config) (client : Service)
  (request_json : ChatRequest) (log : CallLog) (raw : string)
  (response : Resp.Response) (out : Resp.Output) (reply : string) :
  carries request_json raw ->
  strip raw <> "" ->
  ~ matches_greeting (lower (strip raw)) ->
  client log (build_args cfg (strip raw)) = Returns response ->
  Resp.output response = Some out ->
  Resp.output_text out = Some reply ->
  has_unreadable (cits_of response) ->
  fst (chat cfg client request_json log) =
    Respond 500 [("error", JString "'content'")].
Proof.
  intros Hm Hne Hng Hcl Ho Ht Hbad.
  rewrite (chat_calls cfg client _ _ _ Hm Hne), Hcl. simpl.
  rewrite shape_cases, Ho, Ht, (not_greeting _ Hng).
  destruct (citations_loop 1 (cits_of response) []) as [e | sources] eqn:El.
  - now destruct (citations_loop_inl _ _ _ _ El) as [-> _].
  - apply citations_loop_inr in El.
    now apply unreadable_not_readable in Hbad.
Qed.

Lemma unreadable_reference_fails_witness :
  fst (chat sample_cfg sample_client_unreadable sample_question []) =
    Respond 500 [("error", JString "'content'")].
Proof.
  apply (unreadable_reference_fails sample_cfg sample_client_unreadable
           sample_question [] "  What are POSP KYC rules? "
           sample_response_unreadable
           {| Resp.output_text := Some "<div><p>KYC</p></div>" |}
           "<div><p>KYC</p></div>").
  - reflexivity.
  - vm_compute. discriminate.
  - intros H. apply is_greeting_spec in H. vm_compute in H. discriminate.
  - reflexivity.
  - reflexivity.
  - reflexivity.
  - constructor. apply Exists_cons_tl. constructor. reflexivity.
Defined.

(** X3: the text of a 500 is the text of what the service raised, or the name
    in quotes of the key that was missing: output, then text, then, for a
    message that is no greeting, content. *)
Theorem error_texts (cfg : Config) (client : Service)
  (request_json : ChatRequest) (log : CallLog) (raw : string) (body : Body) :
  carries request_json raw ->
  strip raw <> "" ->
  fst (chat cfg client request_json log) = Respond 500 body ->
  exists msg,
    body = [("error", JString msg)] /\
    ((exists e,
        client log (build_args cfg (strip raw)) = Raises e /\ msg = py_str e) \/
     (exists response,
        client log (build_args cfg (strip raw)) = Returns response /\
        ((Resp.output response = None /\ msg = "'output'") \/
         (exists out,
            Resp.output response = Some out /\
            Resp.output_text out = None /\ msg = "'text'") \/
         (exists out reply,
            Resp.output response = Some out /\
            Resp.output_text out = Some reply /\
            ~ matches_greeting (lower (strip raw)) /\
            has_unreadable (cits_of response) /\
            msg = "'content'")))).
Proof.
  intros Hm Hne. rewrite (chat_calls cfg client _ _ _ Hm Hne). simpl.
  destruct (client log (build_args cfg (strip raw))) as [response | e].
  - rewrite shape_cases, strip_lower_strip.
    destruct (Resp.output response) as [out |] eqn:Ho.
    + destruct (Resp.output_text out) as [reply |] eqn:Ht.
      * destruct (is_greeting (lower (strip raw))) eqn:Eg; [discriminate |].
        destruct (citations_loop 1 (cits_of response) []) as [e | sources] eqn:El;
          [| discriminate].
        destruct (citations_loop_inl _ _ _ _ El) as [-> Hbad].
        intros H. injection H as <-. eexists. split; [reflexivity |].
        right. exists response. split; [reflexivity |].
        right. right. exists out, reply.
        split; [exact Ho | split; [exact Ht |]].
        split; [| split; [exact Hbad | reflexivity]].
        intros Hg. apply is_greeting_spec in Hg. congruence.
      * intros H. injection H as <-. eexists. split; [reflexivity |].
        right. exists response. split; [reflexivity |].
        right. left. exists out. now split.
    + intros H. injection H as <-. eexists. split; [reflexivity |].
      right. exists response. split; [reflexivity |]. now left.
  - intros H. injection H as <-. eexists. split; [reflexivity |].
    left. now exists e.
Qed.

Lemma error_texts_witness :
  exists msg,
    [("error", JString "'output'")] = [("error", JString msg)] /\
    ((exists e,
        sample_client_broken []
          (build_args sample_cfg (strip "  What are POSP KYC rules? "))
          = Raises e /\ msg = py_str e) \/
     (exists response,
        sample_client_broken []
          (build_args sample_cfg (strip "  What are POSP KYC rules? "))
          = Returns response /\
        ((Resp.output response = None /\ msg = "'output'") \/
         (exists out,
            Resp.output response = Some out /\
            Resp.output_text out = None /\ msg = "'text'") \/
         (exists out reply,
            Resp.output response = Some out /\
            Resp.output_text out = Some reply /\
            ~ matches_greeting (lower (strip "  What are POSP KYC rules? ")) /\
            has_unreadable (cits_of response) /\
            msg = "'content'")))).
Proof.
  apply (error_texts sample_cfg sample_client_broken sample_question []
           "  What are POSP KYC rules? " [("error", JString "'output'")]).
  - reflexivity.
  - vm_compute. discriminate.
  - reflexivity.
Defined.

End HandlerExtras.

(** ** The greeting strings and the numbering, further *)

Section ShapingExtras.

Import PyStr.

Lemma contains_trans (s k k' : string) :
  contains s k = true -> contains k k' = true -> contains s k' = true.
Proof.
  rewrite !contains_spec. intros [pre [post ->]] [pre' [post' ->]].
  exists (pre ++ pre'), (post' ++ post).
  now rewrite !append_assoc.
Qed.

(** X7: two of the twelve greeting strings never decide anything: a message
    that contains hii contains hi, and one that contains what is your name
    contains your name.  The test gives the same answer with the ten
    others alone. *)
Theorem two_keywords_are_redundant (user_lower : string) :
  is_greeting user_lower =
  existsb (fun keyword => contains user_lower keyword) greeting_keywords_reduced.
Proof.
  apply eq_true_iff_eq. unfold is_greeting. rewrite !existsb_exists. split.
  - intros [k [Hin Hk]]. simpl in Hin.
    assert (Hhi : contains user_lower "hii" = true ->
                  contains user_lower "hi" = true).
    { intros H. apply (contains_trans _ _ _ H). reflexivity. }
    assert (Hname : contains user_lower "what is your name" = true ->
                    contains user_lower "your name" = true).
    { intros H. apply (contains_trans _ _ _ H). reflexivity. }
    repeat (destruct Hin as [<- | Hin];
            [first [ exists "hi"; split; [simpl; tauto | now auto]
                   | exists "your name"; split; [simpl; tauto | now auto]
                   | eexists; split; [| exact Hk]; simpl; tauto ] |]).
    contradiction.
  - intros [k [Hin Hk]]. exists k. split; [| exact Hk].
    simpl in Hin |- *. tauto.
Qed.

Lemma citation_ordinals_count (cits : list Resp.Citation) :
  forall (i : Z) (k : nat) (c : Resp.Citation),
  nth_error cits k = Some c ->
  count_occ Z.eq_dec (citation_ordinals i cits) (i + Z.of_nat k)%Z =
    List.length (refs_of c).
Proof.
  induction cits as [| c0 rest IH]; intros i k c Hk.
  - destruct k; discriminate.
  - simpl. rewrite count_occ_app. destruct k as [| k]; simpl in Hk.
    + injection Hk as <-. rewrite Z.add_0_r.
      rewrite count_occ_repeat_eq by reflexivity.
      assert (H0 : count_occ Z.eq_dec (citation_ordinals (i + 1) rest) i = 0%nat).
      { apply count_occ_not_In. intros Hin.
        apply citation_ordinals_bounds in Hin. lia. }
      rewrite H0. lia.
    + rewrite count_occ_repeat_neq by lia.
      replace (i + Z.of_nat (S k))%Z with (i + 1 + Z.of_nat k)%Z by lia.
      now rewrite (IH _ _ _ Hk).
Qed.

(** X8: the ids group the sources by citation: as many sources carry the
    number of a citation as the citation holds references.  So a citation
    without references leaves its number unused, and the numbers that
    follow are not moved down. *)
Theorem ids_count_references (cfg : Config) (client : Service)
  (request_json : ChatRequest) (log : CallLog) (raw : string)
  (response : Resp.Response) (out : Resp.Output) (reply : string) :
  carries request_json raw ->
  strip raw <> "" ->
  ~ matches_greeting (lower (strip raw)) ->
  client log (build_args cfg (strip raw)) = Returns response ->
  Resp.output response = Some out ->
  Resp.output_text out = Some reply ->
  Forall (fun c => Forall has_content (refs_of c)) (cits_of response) ->
  exists sources,
    fst (chat cfg client request_json log) =
      Respond 200 [("reply", JString reply); ("sources", JSources sources)] /\
    forall k c,
      nth_error (cits_of response) k = Some c ->
      count_occ Z.eq_dec (map id sources) (Z.of_nat k + 1)%Z =
        List.length (refs_of c).
Proof.
  intros Hm Hne Hng Hcl Ho Ht Hwf.
  destruct (chat_question cfg client _ log _ _ _ _ Hm Hne Hng Hcl Ho Ht Hwf)
    as [sources [Hchat Hloop]].
  exists sources. rewrite Hchat. split; [reflexivity |].
  destruct (citations_loop_spec _ _ _ _ Hloop) as [es [Hes [_ [Hids _]]]].
  simpl in Hes. subst es. intros k c Hk.
  rewrite Hids, Z.add_comm. exact (citation_ordinals_count _ _ _ _ Hk).
Qed.

Lemma ids_count_references_witness :
  exists sources,
    fst (chat sample_cfg sample_client_gap sample_question []) =
      Respond 200 [("reply", JString "<div><p>KYC</p></div>");
                   ("sources", JSources sources)] /\
    forall k c,
      nth_error (cits_of sample_response_gap) k = Some c ->
      count_occ Z.eq_dec (map id sources) (Z.of_nat k + 1)%Z =
        List.length (refs_of c).
Proof.
  apply (ids_count_references sample_cfg sample_client_gap sample_question []
           "  What are POSP KYC rules? " sample_response_gap
           {| Resp.output_text := Some "<div><p>KYC</p></div>" |}).
  - reflexivity.
  - vm_compute. discriminate.
  - intros H. apply is_greeting_spec in H. vm_compute in H. discriminate.
  - reflexivity.
  - reflexivity.
  - reflexivity.
  - repeat constructor; discriminate.
Defined.

End ShapingExtras.

(** ** Process start *)

Section StartupFacts.

Lemma filter_nil_iff {A : Type} (f : A -> bool) (l : list A) :
  filter f l = [] <-> forall x, In x l -> f x = false.
Proof.
  induction l as [| a l IH]; simpl.
  - split; [intros _ x [] | reflexivity].
  - destruct (f a) eqn:Ea.
    + split; [discriminate |]. intros H. specialize (H a (or_introl eq_refl)).
      congruence.
    + rewrite IH. split.
      * intros H x [<- | Hx]; [exact Ea | exact (H x Hx)].
      * intros H x Hx. apply H. now right.
Qed.

Lemma truthy_spec (value : option string) :
  Startup.truthy value = true <-> exists s, value = Some s /\ s <> "".
Proof.
  destruct value as [[| c s] |]; simpl.
  - split; [discriminate | intros [s [H Hs]]]. injection H as <-. congruence.
  - split; [intros _ | reflexivity]. eexists. split; [reflexivity | discriminate].
  - split; [discriminate | intros [s [H _]]; discriminate].
Qed.

Lemma not_truthy_spec (value : option string) :
  negb (Startup.truthy value) = true <-> value = None \/ value = Some "".
Proof.
  destruct value as [[| c s] |]; simpl.
  - split; [now right | reflexivity].
  - split; [discriminate | intros [H | H]; discriminate].
  - split; [now left | reflexivity].
Qed.

Lemma load_started (environ : Startup.Environ) (globals : Startup.Globals) :
  Startup.load environ = Startup.Started globals ->
  Startup.missing environ = [] /\
  globals =
    {| Startup.AWS_ACCESS_KEY_ID := environ "AWS_ACCESS_KEY_ID";
       Startup.AWS_SECRET_ACCESS_KEY := environ "AWS_SECRET_ACCESS_KEY";
       Startup.AWS_REGION := get (environ "AWS_REGION") "ap-south-1";
       Startup.KB_ID := environ "KB_ID";
       Startup.MODEL_ARN := environ "MODEL_ARN" |}.
Proof.
  unfold Startup.load. destruct (Startup.missing environ); [| discriminate].
  intros H. injection H as <-. now split.
Qed.

Lemma missing_nil_iff (environ : Startup.Environ) :
  Startup.missing environ = [] <->
  (forall var,
     In var Startup.required_vars ->
     exists value, environ var = Some value /\ value <> "").
Proof.
  unfold Startup.missing. rewrite filter_nil_iff. split.
  - intros H var Hvar. apply truthy_spec.
    specialize (H var Hvar). now apply negb_false_iff in H.
  - intros H var Hvar. apply negb_false_iff, truthy_spec. exact (H var Hvar).
Qed.

(** X9: the process starts exactly when each of the four required variables
    is set to a string that is not empty; a variable set to the empty
    string counts as missing. *)
Theorem load_starts_iff (environ : Startup.Environ) :
  (exists globals, Startup.load environ = Startup.Started globals) <->
  (forall var,
     In var ["AWS_ACCESS_KEY_ID"; "AWS_SECRET_ACCESS_KEY"; "KB_ID"; "MODEL_ARN"] ->
     exists value, environ var = Some value /\ value <> "").
Proof.
  split.
  - intros [globals H]. apply load_started in H as [Hmiss _].
    now apply missing_nil_iff.
  - intros H. apply missing_nil_iff in H.
    unfold Startup.load. rewrite H. eexists. reflexivity.
Qed.

(** X10: when the process does not start, the message is Missing env vars:
    followed by names separated by a comma and a space.  The names are the
    required variables that are unset or empty, each once, in the order
    AWS_ACCESS_KEY_ID, AWS_SECRET_ACCESS_KEY, KB_ID, MODEL_ARN, and there is
    at least one. *)
Theorem load_failure_names_missing (environ : Startup.Environ) (msg : string) :
  Startup.load environ = Startup.EnvironmentError msg ->
  exists names,
    msg = "Missing env vars: " ++ Startup.join ", " names /\
    names <> [] /\
    (forall var,
       In var names <->
       In var Startup.required_vars /\
       (environ var = None \/ environ var = Some "")) /\
    NoDup names /\
    names =
      filter (fun var => existsb (String.eqb var) names) Startup.required_vars.
Proof.
  unfold Startup.load.
  destruct (Startup.missing environ) as [| first others] eqn:E; [discriminate |].
  intros H. injection H as <-. exists (first :: others).
  assert (Hin : forall var,
            In var (first :: others) <->
            In var Startup.required_vars /\
            (environ var = None \/ environ var = Some "")).
  { intros var. rewrite <- E. unfold Startup.missing.
    now rewrite filter_In, not_truthy_spec. }
  split; [reflexivity |]. split; [discriminate |]. split; [exact Hin |].
  split.
  - rewrite <- E. apply NoDup_filter.
    repeat constructor; simpl; intuition discriminate.
  - rewrite <- E at 1. unfold Startup.missing. apply filter_ext_in.
    intros var Hvar.
    destruct (existsb (String.eqb var) (first :: others)) eqn:Ex.
    + apply existsb_exists in Ex as [x [Hx Heq]].
      apply String.eqb_eq in Heq. subst x.
      apply Hin in Hx as [_ Hx]. now apply not_truthy_spec.
    + destruct (negb (Startup.truthy (environ var))) eqn:Et; [| reflexivity].
      apply not_truthy_spec in Et.
      assert (Hmem : In var (first :: others)) by (apply Hin; now split).
      assert (Hex : existsb (String.eqb var) (first :: others) = true).
      { apply existsb_exists. exists var. split; [exact Hmem |].
        apply String.eqb_refl. }
      congruence.
Qed.

Lemma load_failure_names_missing_witness :
  exists names,
    "Missing env vars: KB_ID, MODEL_ARN" =
      "Missing env vars: " ++ Startup.join ", " names /\
    names <> [] /\
    (forall var,
       In var names <->
       In var Startup.required_vars /\
       (Startup.setenv (Startup.setenv sample_environ "KB_ID" (Some ""))
          "MODEL_ARN" None var = None \/
        Startup.setenv (Startup.setenv sample_environ "KB_ID" (Some ""))
          "MODEL_ARN" None var = Some "")) /\
    NoDup names /\
    names =
      filter (fun var => existsb (String.eqb var) names) Startup.required_vars.
Proof.
  apply (load_failure_names_missing
           (Startup.setenv (Startup.setenv sample_environ "KB_ID" (Some ""))
              "MODEL_ARN" None)
           "Missing env vars: KB_ID, MODEL_ARN").
  vm_compute. reflexivity.
Defined.

(** X12: once the process has started, the handler has a knowledge base id and
    a model ARN that are the values of the two variables and are not empty,
    and every request it sends carries them, with the prompt template. *)
Theorem started_requests_carry_ids (environ : Startup.Environ)
  (globals : Startup.Globals) (system_prompt : string) :
  Startup.load environ = Startup.Started globals ->
  exists cfg,
    config_of globals system_prompt = Some cfg /\
    environ "KB_ID" = Some (KB_ID cfg) /\
    environ "MODEL_ARN" = Some (MODEL_ARN cfg) /\
    KB_ID cfg <> "" /\
    MODEL_ARN cfg <> "" /\
    forall (client : Service) (request_json : ChatRequest) (log : CallLog)
           (raw : string),
      carries request_json raw ->
      PyStr.strip raw <> "" ->
      exists args,
        snd (chat cfg client request_json log) = (log ++ [args])%list /\
        (let kb := Req.knowledgeBaseConfiguration
                     (Req.retrieveAndGenerateConfiguration args) in
         Req.knowledgeBaseId kb = KB_ID cfg /\
         Req.modelArn kb = MODEL_ARN cfg /\
         Req.textPromptTemplate
           (Req.promptTemplate (Req.generationConfiguration kb)) =
           system_prompt).
Proof.
  intros H. apply load_started in H as [Hall ->].
  rewrite missing_nil_iff in Hall.
  destruct (Hall "KB_ID" ltac:(simpl; tauto)) as [kb_id [Hkb Hkb_ne]].
  destruct (Hall "MODEL_ARN" ltac:(simpl; tauto)) as [model_arn [Harn Harn_ne]].
  exists {| KB_ID := kb_id; MODEL_ARN := model_arn;
            SYSTEM_PROMPT := system_prompt |}.
  unfold config_of. simpl. rewrite Hkb, Harn.
  repeat split; try assumption.
  intros client request_json log raw Hm Hne.
  exists (build_args {| KB_ID := kb_id; MODEL_ARN := model_arn;
                        SYSTEM_PROMPT := system_prompt |} (PyStr.strip raw)).
  rewrite (chat_calls _ client _ _ _ Hm Hne). repeat split.
Qed.

Lemma started_requests_carry_ids_witness :
  exists cfg,
    config_of
      {| Startup.AWS_ACCESS_KEY_ID := Some "AKIAEXAMPLE";
         Startup.AWS_SECRET_ACCESS_KEY := Some "secret";
         Startup.AWS_REGION := "ap-south-1";
         Startup.KB_ID := Some "KB0001";
         Startup.MODEL_ARN := Some "arn:aws:bedrock:model" |}
      "$search_results$" = Some cfg /\
    sample_environ "KB_ID" = Some (KB_ID cfg) /\
    sample_environ "MODEL_ARN" = Some (MODEL_ARN cfg) /\
    KB_ID cfg <> "" /\
    MODEL_ARN cfg <> "" /\
    forall (client : Service) (request_json : ChatRequest) (log : CallLog)
           (raw : string),
      carries request_json raw ->
      PyStr.strip raw <> "" ->
      exists args,
        snd (chat cfg client request_json log) = (log ++ [args])%list /\
        (let kb := Req.knowledgeBaseConfiguration
                     (Req.retrieveAndGenerateConfiguration args) in
         Req.knowledgeBaseId kb = KB_ID cfg /\
         Req.modelArn kb = MODEL_ARN cfg /\
         Req.textPromptTemplate
           (Req.promptTemplate (Req.generationConfiguration kb)) =
           "$search_results$").
Proof.
  apply (started_requests_carry_ids sample_environ).
  reflexivity.
Defined.

End StartupFacts.

(** ** The page *)

Section PageFacts.

Import Page.

Lemma same_name_sym (a b : string) : same_name a b = same_name b a.
Proof.
  unfold same_name. apply String.eqb_sym.
Qed.

Lemma same_name_trans (a b c : string) :
  same_name a b = true -> same_name b c = true -> same_name a c = true.
Proof.
  unfold same_name. rewrite !String.eqb_eq. congruence.
Qed.

Lemma same_name_apart (a b c : string) :
  same_name a b = false -> same_name b c = true -> same_name a c = false.
Proof.
  intros Hab Hbc. destruct (same_name a c) eqn:Hac; [| reflexivity].
  rewrite same_name_sym in Hbc.
  now rewrite (same_name_trans _ _ _ Hac Hbc) in Hab.
Qed.

Lemma lookup_assign_same (key key' value : string) (h : Headers) :
  same_name key key' = true -> lookup key' (assign key value h) = Some value.
Proof.
  intros Hk. induction h as [| [k v] rest IH]; simpl.
  - now rewrite Hk.
  - destruct (same_name k key) eqn:E; simpl.
    + now rewrite Hk.
    + now rewrite (same_name_apart _ _ _ E Hk).
Qed.

Lemma lookup_filter_other (key key' : string) (h : Headers) :
  same_name key key' = false ->
  lookup key' (filter (fun t => negb (same_name (fst t) key)) h) = lookup key' h.
Proof.
  intros Hk. induction h as [| [k v] rest IH]; simpl; [reflexivity |].
  destruct (same_name k key) eqn:E; simpl.
  - rewrite same_name_sym in E.
    assert (Hf : same_name k key' = false).
    { rewrite same_name_sym. rewrite same_name_sym in Hk.
      exact (same_name_apart _ _ _ Hk E). }
    now rewrite Hf.
  - now rewrite IH.
Qed.

Lemma lookup_assign_other (key key' value : string) (h : Headers) :
  same_name key key' = false ->
  lookup key' (assign key value h) = lookup key' h.
Proof.
  intros Hk. induction h as [| [k v] rest IH]; simpl.
  - now rewrite Hk.
  - destruct (same_name k key) eqn:E; simpl.
    + rewrite Hk, (lookup_filter_other _ _ _ Hk).
      rewrite same_name_sym in E.
      assert (Hf : same_name k key' = false).
      { rewrite same_name_sym. rewrite same_name_sym in Hk.
        exact (same_name_apart _ _ _ Hk E). }
      now rewrite Hf.
    + now rewrite IH.
Qed.

Lemma occurrences_filter_same (key key' : string) (h : Headers) :
  same_name key key' = true ->
  occurrences key' (filter (fun t => negb (same_name (fst t) key)) h) = 0%nat.
Proof.
  intros Hk. unfold occurrences.
  induction h as [| [k v] rest IH]; simpl; [reflexivity |].
  destruct (same_name k key) eqn:E; simpl; [exact IH |].
  now rewrite (same_name_apart _ _ _ E Hk).
Qed.

Lemma occurrences_filter_other (key key' : string) (h : Headers) :
  same_name key key' = false ->
  occurrences key' (filter (fun t => negb (same_name (fst t) key)) h) =
  occurrences key' h.
Proof.
  intros Hk. unfold occurrences.
  induction h as [| [k v] rest IH]; simpl; [reflexivity |].
  destruct (same_name k key) eqn:E; simpl.
  - rewrite same_name_sym in E.
    assert (Hf : same_name k key' = false).
    { rewrite same_name_sym. rewrite same_name_sym in Hk.
      exact (same_name_apart _ _ _ Hk E). }
    now rewrite Hf.
  - destruct (same_name k key'); simpl; now rewrite IH.
Qed.

Lemma occurrences_cons (key' k v : string) (h : Headers) :
  occurrences key' ((k, v) :: h) =
  ((if same_name k key' then 1 else 0) + occurrences key' h)%nat.
Proof.
  unfold occurrences. simpl. now destruct (same_name k key').
Qed.

Lemma occurrences_assign_same (key key' value : string) (h : Headers) :
  same_name key key' = true ->
  occurrences key' (assign key value h) = 1%nat.
Proof.
  intros Hk. induction h as [| [k v] rest IH]; simpl.
  - now rewrite occurrences_cons, Hk.
  - destruct (same_name k key) eqn:E.
    + now rewrite occurrences_cons, Hk, (occurrences_filter_same _ _ rest Hk).
    + now rewrite occurrences_cons, (same_name_apart _ _ _ E Hk), IH.
Qed.

Lemma occurrences_assign_other (key key' value : string) (h : Headers) :
  same_name key key' = false ->
  occurrences key' (assign key value h) = occurrences key' h.
Proof.
  intros Hk. induction h as [| [k v] rest IH]; simpl.
  - now rewrite occurrences_cons, Hk.
  - destruct (same_name k key) eqn:E.
    + rewrite !occurrences_cons, Hk, (occurrences_filter_other _ _ rest Hk).
      rewrite same_name_sym in E.
      assert (Hf : same_name k key' = false).
      { rewrite same_name_sym. rewrite same_name_sym in Hk.
        exact (same_name_apart _ _ _ Hk E). }
      now rewrite Hf.
    + now rewrite !occurrences_cons, IH.
Qed.

(** X13: whatever headers the rendered page came with, the answer of [index]
    carries each of Cache-Control, Pragma and Expires exactly once, with
    the value that forbids caching, under any spelling of the name in
    upper or lower case. *)
Theorem index_forbids_caching (rendered : Response)
  (name value key : string) :
  In (name, value)
     [("Cache-Control", "no-cache, no-store, must-revalidate");
      ("Pragma", "no-cache"); ("Expires", "0")] ->
  same_name name key = true ->
  lookup key (headers (index rendered)) = Some value /\
  occurrences key (headers (index rendered)) = 1%nat.
Proof.
  intros Hin Hk. unfold index. simpl headers.
  assert (Hother : forall other,
            same_name other name = false -> same_name other key = false).
  { intros other H. exact (same_name_apart _ _ _ H Hk). }
  simpl in Hin. destruct Hin as [H | [H | [H | []]]]; injection H as <- <-.
  - rewrite !lookup_assign_other, !occurrences_assign_other
      by (apply Hother; reflexivity).
    split; [now apply lookup_assign_same | now apply occurrences_assign_same].
  - rewrite lookup_assign_other, occurrences_assign_other
      by (apply Hother; reflexivity).
    split; [now apply lookup_assign_same | now apply occurrences_assign_same].
  - split; [now apply lookup_assign_same | now apply occurrences_assign_same].
Qed.

Lemma index_forbids_caching_witness :
  lookup "cache-control" (headers (index sample_page)) =
    Some "no-cache, no-store, must-revalidate" /\
  occurrences "cache-control" (headers (index sample_page)) = 1%nat.
Proof.
  apply (index_forbids_caching sample_page "Cache-Control"
           "no-cache, no-store, must-revalidate" "cache-control").
  - simpl. tauto.
  - reflexivity.
Defined.

(** X14: [index] touches nothing else: the body and the status of the rendered
    page are kept, and so is every header whose name is none of the three,
    with its value and as many times as it was there. *)
Theorem index_keeps_the_rest (rendered : Response) (key : string) :
  same_name "Cache-Control" key = false ->
  same_name "Pragma" key = false ->
  same_name "Expires" key = false ->
  data (index rendered) = data rendered /\
  status (index rendered) = status rendered /\
  lookup key (headers (index rendered)) = lookup key (headers rendered) /\
  occurrences key (headers (index rendered)) =
    occurrences key (headers rendered).
Proof.
  intros Hc Hp He. unfold index. simpl.
  rewrite !lookup_assign_other, !occurrences_assign_other by assumption.
  repeat split.
Qed.

Lemma index_keeps_the_rest_witness :
  data (index sample_page) = data sample_page /\
  status (index sample_page) = status sample_page /\
  lookup "content-type" (headers (index sample_page)) =
    lookup "content-type" (headers sample_page) /\
  occurrences "content-type" (headers (index sample_page)) =
    occurrences "content-type" (headers sample_page).
Proof.
  apply (index_keeps_the_rest sample_page "content-type").
  - reflexivity.
  - reflexivity.
  - reflexivity.
Defined.

End PageFacts.
